(** * Offline cache agent of ayyappa_songs: the two service-worker revisions

    The repository holds two revisions of one service worker:
    - revision 1, cache version [ayyappa-songs-v5] (module [V5]),
    - revision 2, cache name [ayyappa-songs-v7]    (module [V7]),
    and a page script ([static/js/app.js], module [App]) that talks to it.

    The handlers are embedded over a small promise monad: a promise is a
    function of the worker-visible state that settles (fulfilled or
    rejected) and leaves a new state.  The browser services the handlers
    call (CacheStorage, Cache, fetch, console) are modelled in [Host]
    after the Service Worker and Fetch standards.  One event is handled at
    a time, and the work a handler starts without awaiting it is carried
    out before the handler's run ends, so a run leaves the state in which
    all the work it started has settled.  Console and toast texts are kept
    without their emoji. *)

From stdpp Require Import base option list gmap strings.
From Stdlib Require Import ZArith String.

Open Scope string_scope.
Open Scope Z_scope.

(** ** Requests, responses, state *)

(** An absolute URL, kept as its origin and the rest (path, query).
    [href] is what [request.url] holds in the source. *)
Record URL := mkURL { origin : string; pathname : string }.

Definition href (u : URL) : string := origin u +:+ pathname u.

Record Request := mkRequest {
  url : URL;
  method : string;      (* 'GET', 'POST', ... *)
  mode : string;        (* 'navigate', 'cors', 'no-cors', 'same-origin' *)
  cache_mode : string   (* 'default', 'reload', ... *)
}.

Record Response := mkResponse {
  status : Z;
  type : string;        (* 'basic', 'cors', 'opaque', 'default', ... *)
  body : string
}.

(** [response.ok]: status in the range 200-299. *)
Definition ok (r : Response) : bool := (200 <=? status r) && (status r <=? 299).

(** [response.clone()]: a second handle on the same status, type and body. *)
Definition clone (r : Response) : Response := r.

(** [new Response(body, { status })]. *)
Definition new_Response (b : string) (st : Z) : Response :=
  {| status := st; type := "default"; body := b |}.

(** What a promise rejects with: the error of a failed network fetch, and
    the TypeError of the cache operations. *)
Inductive Err := NetworkFailure | TypeError.

Inductive Level := Log | Warn | Error.

(** One cache generation: request URL (of a GET request) to response. *)
Abbreviation Cache := (gmap string Response).

(** CacheStorage: the named caches in creation order, which is the order of
    [caches.keys()] and the order in which [caches.match] searches. *)
Abbreviation CacheStorage := (list (string * gmap string Response)).

Record State := mkState {
  caches : CacheStorage;
  fetched : list Request;           (* network fetches issued, latest first *)
  console : list (Level * string);  (* console lines, latest first *)
  toasts : list (string * string);  (* page toasts (message, type), latest first *)
  skipped_waiting : bool;
  claimed : bool
}.

Definition initial : State :=
  {| caches := []; fetched := []; console := []; toasts := [];
     skipped_waiting := false; claimed := false |}.

Definition with_caches (cs : CacheStorage) (s : State) : State :=
  {| caches := cs; fetched := fetched s; console := console s;
     toasts := toasts s;
     skipped_waiting := skipped_waiting s; claimed := claimed s |}.

(** ** Promises *)

Inductive Settled (A : Type) :=
| Fulfilled (a : A)
| Rejected (e : Err).
Arguments Fulfilled {A} a.
Arguments Rejected {A} e.

Definition Promise (A : Type) : Type := State -> Settled A * State.

Definition resolve {A} (a : A) : Promise A := fun s => (Fulfilled a, s).
Definition reject {A} (e : Err) : Promise A := fun s => (Rejected e, s).

(** [p.then(f)] *)
Definition then_ {A B} (p : Promise A) (f : A -> Promise B) : Promise B :=
  fun s => match p s with
           | (Fulfilled a, s') => f a s'
           | (Rejected e, s') => (Rejected e, s')
           end.

(** [p.catch(h)] *)
Definition catch {A} (p : Promise A) (h : Err -> Promise A) : Promise A :=
  fun s => match p s with
           | (Fulfilled a, s') => (Fulfilled a, s')
           | (Rejected e, s') => h e s'
           end.

(** A promise that is started and not returned or awaited (fire and
    forget): its effects happen, its outcome (also a rejection) is seen by
    nobody. *)
Definition detached {A} (p : Promise A) : Promise unit :=
  fun s => (Fulfilled tt, snd (p s)).

(** [Promise.all(ps)]: every promise of the array has been started, so all
    effects happen; the result is the array of values, or the first
    rejection. *)
Fixpoint Promise_all {A} (ps : list (Promise A)) : Promise (list A) :=
  match ps with
  | [] => resolve []
  | p :: ps' =>
      fun s =>
        let '(r, s1) := p s in
        let '(rs, s2) := Promise_all ps' s1 in
        (match r, rs with
         | Rejected e, _ => Rejected e
         | Fulfilled _, Rejected e => Rejected e
         | Fulfilled a, Fulfilled l => Fulfilled (a :: l)
         end, s2)
  end.

Declare Scope promise_scope.
Delimit Scope promise_scope with promise.
Notation "x <- p ;; k" := (then_ p (fun x => k))
  (at level 100, p at next level, right associativity) : promise_scope.
Notation "p ;; k" := (then_ p (fun _ => k))
  (at level 100, right associativity) : promise_scope.
Open Scope promise_scope.

(** ** The host: CacheStorage, Cache, fetch, console *)

Module Host.

(** What the worker cannot see: its own origin and what the network
    answers ([None]: the fetch rejects). *)
Record t := mk { location_origin : string; network : Request -> option Response }.

(** A URL string used where the API takes a request ([fetch(url)],
    [cache.add(url)], [caches.match(url)]) is parsed against the worker's
    location into a GET request.  The model covers the strings the source
    uses there, root-relative paths in normal form ([root_relative] below:
    the manifests, the offline path, the song paths of the page script);
    for these the parsed URL is the worker's origin followed by the string.
    Statements about a string that is not a constant of the source carry
    [root_relative] as a hypothesis. *)
Definition request_of (h : t) (path : string) (cm : string) : Request :=
  {| url := {| origin := location_origin h; pathname := path |};
     method := "GET"; mode := "cors"; cache_mode := cm |}.

(** The characters the URL parser leaves as they are in a path: letters,
    digits and [- . / _ ~]. *)
Definition path_char (a : Ascii.ascii) : bool :=
  let n := Ascii.nat_of_ascii a in
  ((48 <=? n) && (n <=? 57) || (65 <=? n) && (n <=? 90) || (97 <=? n) && (n <=? 122)
   || (n =? 45) || (n =? 46) || (n =? 47) || (n =? 95) || (n =? 126))%nat.

Fixpoint all_path_chars (u : string) : bool :=
  match u with
  | EmptyString => true
  | String a u' => path_char a && all_path_chars u'
  end.

(** No path segment is [.] or [..] (the parser would remove them).  [dots]
    counts the dots of the current segment while it holds dots only. *)
Definition dot_segment (dots : option nat) : bool :=
  match dots with
  | Some 1%nat | Some 2%nat => true
  | _ => false
  end.

Fixpoint dot_free (u : string) (dots : option nat) : bool :=
  match u with
  | EmptyString => negb (dot_segment dots)
  | String a u' =>
      if (Ascii.nat_of_ascii a =? 47)%nat then negb (dot_segment dots) && dot_free u' (Some 0%nat)
      else if (Ascii.nat_of_ascii a =? 46)%nat then dot_free u' (S <$> dots)
      else dot_free u' None
  end.

(** A root-relative path in normal form: it starts with one slash (not
    two), holds only characters the parser keeps, and has no dot segment,
    query or fragment.  Parsing such a string against a location yields the
    location's origin followed by the string. *)
Definition root_relative (u : string) : bool :=
  match u with
  | String a rest =>
      (Ascii.nat_of_ascii a =? 47)%nat
      && match rest with
         | String b _ => negb (Ascii.nat_of_ascii b =? 47)%nat
         | EmptyString => true
         end
      && all_path_chars u && dot_free rest (Some 0%nat)
  | EmptyString => false
  end.

Definition console_line (l : Level) (msg : string) : Promise unit :=
  fun s => (Fulfilled tt,
            {| caches := caches s; fetched := fetched s;
               console := (l, msg) :: console s; toasts := toasts s;
               skipped_waiting := skipped_waiting s; claimed := claimed s |}).

Definition skipWaiting : Promise unit :=
  fun s => (Fulfilled tt,
            {| caches := caches s; fetched := fetched s; console := console s;
               toasts := toasts s;
               skipped_waiting := true; claimed := claimed s |}).

Definition clients_claim : Promise unit :=
  fun s => (Fulfilled tt,
            {| caches := caches s; fetched := fetched s; console := console s;
               toasts := toasts s;
               skipped_waiting := skipped_waiting s; claimed := true |}).

(** [fetch(request)]: one network call; rejects when the network fails. *)
Definition fetch (h : t) (req : Request) : Promise Response :=
  fun s =>
    let s' := {| caches := caches s; fetched := req :: fetched s;
                 console := console s; toasts := toasts s;
                 skipped_waiting := skipped_waiting s; claimed := claimed s |} in
    match network h req with
    | Some r => (Fulfilled r, s')
    | None => (Rejected NetworkFailure, s')
    end.

(** *** CacheStorage as an association list *)

Fixpoint storage_get (name : string) (cs : CacheStorage) : option Cache :=
  match cs with
  | [] => None
  | (n, c) :: cs' => if decide (n = name) then Some c else storage_get name cs'
  end.

(** Replace the cache called [name] where it stands; a new name goes last. *)
Fixpoint storage_set (name : string) (c : Cache) (cs : CacheStorage) : CacheStorage :=
  match cs with
  | [] => [(name, c)]
  | (n, c0) :: cs' =>
      if decide (n = name) then (n, c) :: cs' else (n, c0) :: storage_set name c cs'
  end.

Fixpoint storage_remove (name : string) (cs : CacheStorage) : CacheStorage :=
  match cs with
  | [] => []
  | (n, c) :: cs' =>
      if decide (n = name) then storage_remove name cs' else (n, c) :: storage_remove name cs'
  end.

Definition storage_keys (cs : CacheStorage) : list string := cs.*1.

(** [cache.match(request)]: a request whose method is not GET matches
    nothing; otherwise the entry stored under the request's URL. *)
Definition cache_match (req : Request) (c : Cache) : option Response :=
  if decide (method req = "GET") then c !! href (url req) else None.

(** [caches.match(request)] searches the caches in creation order. *)
Fixpoint storage_match (req : Request) (cs : CacheStorage) : option Response :=
  match cs with
  | [] => None
  | (_, c) :: cs' =>
      match cache_match req c with
      | Some r => Some r
      | None => storage_match req cs'
      end
  end.

(** The entry under [key] in the cache called [name], if both exist. *)
Definition entry (name key : string) (cs : CacheStorage) : option Response :=
  storage_get name cs ≫= (.!! key).

(** *** The promise-returning API *)

(** [caches.open(name)]: creates the cache when it does not exist; the
    handle is the name. *)
Definition caches_open (name : string) : Promise string :=
  fun s =>
    match storage_get name (caches s) with
    | Some _ => (Fulfilled name, s)
    | None => (Fulfilled name, with_caches (caches s ++ [(name, ∅)]) s)
    end.

Definition caches_keys : Promise (list string) :=
  fun s => (Fulfilled (storage_keys (caches s)), s).

(** [caches.delete(name)] resolves to whether the cache existed. *)
Definition caches_delete (name : string) : Promise bool :=
  fun s => (Fulfilled (bool_decide (is_Some (storage_get name (caches s)))),
            with_caches (storage_remove name (caches s)) s).

Definition caches_match (req : Request) : Promise (option Response) :=
  fun s => (Fulfilled (storage_match req (caches s)), s).

Definition cache_write (name key : string) (r : Response) (cs : CacheStorage) : CacheStorage :=
  storage_set name (<[key := r]> (default ∅ (storage_get name cs))) cs.

(** [cache.put(request, response)]: rejects with a TypeError for a request
    whose method is not GET and for a 206 response. *)
Definition cache_put (name : string) (req : Request) (r : Response) : Promise unit :=
  fun s =>
    if decide (method req = "GET") then
      if decide (status r = 206) then (Rejected TypeError, s)
      else (Fulfilled tt, with_caches (cache_write name (href (url req)) r (caches s)) s)
    else (Rejected TypeError, s).

(** What [cache.add] and [cache.addAll] accept of a fetched response. *)
Definition addable (r : Response) : bool := ok r && negb (status r =? 206).

(** The fetch step of [cache.add] and [cache.addAll]: a response that is
    not ok makes the operation reject with a TypeError. *)
Definition fetch_ok (h : t) (path : string) : Promise Response :=
  r <- fetch h (request_of h path "default") ;;
  if addable r then resolve r else reject TypeError.

(** [cache.add(url)]: fetch, reject unless the response is ok, then put. *)
Definition cache_add (h : t) (name : string) (path : string) : Promise unit :=
  r <- fetch_ok h path ;;
  cache_put name (request_of h path "default") r.

(** [cache.addAll(urls)]: fetch every URL; all-or-nothing: when a fetch
    fails or a response is not ok, reject and write nothing. *)
Definition cache_addAll (h : t) (name : string) (paths : list string) : Promise unit :=
  rs <- Promise_all (map (fetch_ok h) paths) ;;
  Promise_all (map (fun pr => cache_put name (request_of h pr.1 "default") pr.2)
                   (zip paths rs)) ;;
  resolve tt.

End Host.

(** [event.data] of a message event: [None] is a falsy value (null,
    undefined, ...); otherwise the value with its [type] property, when it
    has one, and its [url] property. *)
Record MessageData := mkData { data_type : option string; data_url : string }.

(** What a fetch event ends in: the handler returned without calling
    [event.respondWith] (the browser handles the request as if there were no
    worker), or it responded with a promise that settled with a response or
    with [undefined] ([None]; the browser turns that into a network error). *)
Definition Interception := option (Promise (option Response)).

(** ** Revision 1: cache version ayyappa-songs-v5 *)

Module V5.

Definition CACHE_VERSION : string := "ayyappa-songs-v5".
Definition OFFLINE_PAGE : string := "/offline/".
Definition CACHE_NAME : string := CACHE_VERSION +:+ "-cache".

Definition urlsToCache : list string :=
  [ "/"; "/songs/"; "/offline/"; "/static/manifest.json";
    "/static/icons/icon-192.png"; "/static/icons/icon-512.png" ].

(** The install listener.  Its synchronous statements (the first log and
    [self.skipWaiting()]) run before any continuation of the promise handed
    to [event.waitUntil]; the value is that promise. *)
Definition install (h : Host.t) : Promise unit :=
  Host.console_line Log "Service Worker: Installing..." ;;
  Host.skipWaiting ;;
  catch
    (cache <- Host.caches_open CACHE_NAME ;;
     Host.console_line Log "Caching core resources" ;;
     Host.cache_addAll h cache urlsToCache)
    (fun err => Host.console_line Error "Cache add failed:").

(** The callback the activate listener maps over [cacheNames]; it
    returns [undefined] ([None]) for the current name. *)
Definition delete_old (cacheName : string) : Promise (option bool) :=
  if decide (cacheName ≠ CACHE_NAME) then
    Host.console_line Log ("Deleting old cache: " +:+ cacheName) ;;
    b <- Host.caches_delete cacheName ;;
    resolve (Some b)
  else resolve None.

(** The activate listener; the value is the promise handed to
    [event.waitUntil]. *)
Definition activate : Promise (list (option bool)) :=
  Host.console_line Log "Cleaning old caches..." ;;
  Host.clients_claim ;;
  cacheNames <- Host.caches_keys ;;
  Promise_all (map delete_old cacheNames).

(** The fetch listener. *)
Definition on_fetch (h : Host.t) (request : Request) : Interception :=
  if decide (method request ≠ "GET") then None
  else Some
    (cachedResponse <- Host.caches_match request ;;
     match cachedResponse with
     | Some r => resolve (Some r)
     | None =>
         catch
           (networkResponse <- Host.fetch h request ;;
            (if String.prefix (Host.location_origin h) (href (url request)) then
               let responseClone := clone networkResponse in
               detached (cache <- Host.caches_open CACHE_NAME ;;
                         detached (Host.cache_put cache request responseClone))
             else resolve tt) ;;
            resolve (Some networkResponse))
           (fun _ =>
              if decide (mode request = "navigate")
              then Host.caches_match (Host.request_of h OFFLINE_PAGE "default")
              else resolve None)
     end).

(** The message listener; nothing it starts is awaited. *)
Definition on_message (h : Host.t) (data : option MessageData) : Promise unit :=
  match data with
  | Some d =>
      if decide (data_type d = Some "SAVE_OFFLINE") then
        detached (cache <- Host.caches_open CACHE_NAME ;;
                  detached (Host.cache_add h cache (data_url d) ;;
                            Host.console_line Log ("Cached for offline: " +:+ data_url d)))
      else resolve tt
  | None => resolve tt
  end.

End V5.

(** ** Revision 2: cache name ayyappa-songs-v7 *)

Module V7.

Definition CACHE_NAME : string := "ayyappa-songs-v7".
Definition OFFLINE_URL : string := "/offline/".

Definition CACHE_URLS : list string :=
  [ "/"; "/offline/"; "/static/manifest.json"; "/static/css/tailwind.min.css";
    "/static/icons/icon-192.png"; "/static/icons/icon-512.png" ].

(** One manifest entry of the install listener: the body of the async
    arrow function mapped over [CACHE_URLS], with its try/catch. *)
Definition cache_one (h : Host.t) (cache : string) (u : string) : Promise unit :=
  catch
    (response <- Host.fetch h (Host.request_of h u "reload") ;;
     if ok response
     then Host.cache_put cache (Host.request_of h u "default") response
     else resolve tt)
    (fun error => Host.console_line Warn ("Failed to cache: " +:+ u)).

(** The install listener: [self.skipWaiting()] is called synchronously,
    the value is the promise handed to [event.waitUntil]. *)
Definition install (h : Host.t) : Promise unit :=
  Host.skipWaiting ;;
  cache <- Host.caches_open CACHE_NAME ;;
  let cachePromises := map (cache_one h cache) CACHE_URLS in
  Promise_all cachePromises ;;
  Host.console_line Log "Service Worker v7 installed".

(** The callback the activate listener maps over [cacheNames]. *)
Definition delete_old (cacheName : string) : Promise (option bool) :=
  if decide (cacheName ≠ CACHE_NAME) then
    b <- Host.caches_delete cacheName ;;
    resolve (Some b)
  else resolve None.

(** The activate listener: [self.clients.claim()] is called synchronously,
    the value is the promise handed to [event.waitUntil]. *)
Definition activate : Promise unit :=
  Host.clients_claim ;;
  cacheNames <- Host.caches_keys ;;
  Promise_all (map delete_old cacheNames) ;;
  Host.console_line Log "Service Worker v7 activated".

(** The fetch listener.  The test [!response] of the source is left out: a
    fulfilled fetch always carries a response object. *)
Definition on_fetch (h : Host.t) (request : Request) : Interception :=
  if decide (origin (url request) ≠ Host.location_origin h) then None
  else if decide (mode request = "navigate") then
    Some (catch (r <- Host.fetch h request ;; resolve (Some r))
                (fun _ => Host.caches_match (Host.request_of h OFFLINE_URL "default")))
  else Some
    (cachedResponse <- Host.caches_match request ;;
     match cachedResponse with
     | Some r => resolve (Some r)
     | None =>
         catch
           (response <- Host.fetch h request ;;
            if decide (status response ≠ 200 ∨ type response ≠ "basic")
            then resolve (Some response)
            else
              let responseToCache := clone response in
              detached (cache <- Host.caches_open CACHE_NAME ;;
                        detached (Host.cache_put cache request responseToCache)) ;;
              resolve (Some response))
           (fun _ => resolve (Some (new_Response "Network error" 408)))
     end).

(** Revision 2 registers no message listener: a message event has no
    effect in the worker. *)
Definition on_message (h : Host.t) (data : option MessageData) : Promise unit :=
  resolve tt.

End V7.

(** ** Running an event *)

Inductive Outcome :=
| PassedThrough                       (* respondWith was not called *)
| Responded (r : option Response)     (* the respondWith promise fulfilled *)
| Failed (e : Err).                   (* the respondWith promise rejected *)

Definition run_fetch (i : Interception) (s : State) : Outcome * State :=
  match i with
  | None => (PassedThrough, s)
  | Some p => match p s with
              | (Fulfilled r, s') => (Responded r, s')
              | (Rejected e, s') => (Failed e, s')
              end
  end.

Inductive Revision := Rev1 | Rev2.

Definition CACHE_NAME (v : Revision) : string :=
  match v with Rev1 => V5.CACHE_NAME | Rev2 => V7.CACHE_NAME end.

Definition OFFLINE (v : Revision) : string :=
  match v with Rev1 => V5.OFFLINE_PAGE | Rev2 => V7.OFFLINE_URL end.

Definition on_fetch (v : Revision) : Host.t -> Request -> Interception :=
  match v with Rev1 => V5.on_fetch | Rev2 => V7.on_fetch end.

Definition on_message (v : Revision) : Host.t -> option MessageData -> Promise unit :=
  match v with Rev1 => V5.on_message | Rev2 => V7.on_message end.

(** The state an activate event leaves, and whether its [waitUntil] promise
    fulfilled. *)
Definition run_activate (v : Revision) (s : State) : bool * State :=
  match v with
  | Rev1 => match V5.activate s with
            | (Fulfilled _, s') => (true, s')
            | (Rejected _, s') => (false, s')
            end
  | Rev2 => match V7.activate s with
            | (Fulfilled _, s') => (true, s')
            | (Rejected _, s') => (false, s')
            end
  end.

(** When a revision's fetch handler leaves a copy of the network response
    to a same-origin GET request in its cache: revision 1 hands every
    response to [cache.put] (which refuses a 206), revision 2 only a
    "basic" response with status 200. *)
Definition stores (v : Revision) (resp : Response) : Prop :=
  match v with
  | Rev1 => status resp ≠ 206
  | Rev2 => status resp = 200 ∧ type resp = "basic"
  end.

#[global] Instance stores_dec v resp : Decision (stores v resp).
Proof. destruct v; simpl; apply _. Defined.

(** ** The page script (static/js/app.js) *)

Module App.

Definition OFFLINE_SONGS : string := "ayyappa-offline-songs".

Definition song_url (songId : string) : string := "/songs/view/" +:+ songId +:+ "/".

(** The double-quote character of the toast text. *)
Definition dquote : string := String (Ascii.ascii_of_nat 34) EmptyString.

Definition showToast (message type : string) : Promise unit :=
  fun s => (Fulfilled tt,
            {| caches := caches s; fetched := fetched s; console := console s;
               toasts := (message, type) :: toasts s;
               skipped_waiting := skipped_waiting s; claimed := claimed s |}).

(** A fetch issued by a page that revision [v] controls is a fetch event of
    that worker: when its listener calls respondWith the page gets the
    listener's answer (no response makes the page's fetch fail), otherwise
    the network's. *)
Definition controlled_fetch (v : Revision) (h : Host.t) (req : Request) : Promise Response :=
  match on_fetch v h req with
  | None => Host.fetch h req
  | Some p =>
      r <- p ;;
      match r with
      | Some resp => resolve resp
      | None => reject NetworkFailure
      end
  end.

(** [cache.add(url)] called by the controlled page: like the worker's own
    [cache.add], with the page's fetch. *)
Definition cache_add (v : Revision) (h : Host.t) (name : string) (path : string)
    : Promise unit :=
  r <- controlled_fetch v h (Host.request_of h path "default") ;;
  if Host.addable r
  then Host.cache_put name (Host.request_of h path "default") r
  else reject TypeError.

(** [saveOffline(songId, title)].  [supported] is the feature test
    ['serviceWorker' in navigator && 'caches' in window]; [controller] is
    [navigator.serviceWorker.controller], the revision controlling the page
    ([None]: no controller, [postMessage] on null throws).  The message is
    a message event of the controller, and the fetch of the page's
    [cache.add] a fetch event of the controller. *)
Definition saveOffline (h : Host.t) (controller : option Revision)
    (supported : bool) (songId title : string) : Promise unit :=
  if supported then
    let u := song_url songId in
    match controller with
    | None => reject TypeError
    | Some v =>
        detached (on_message v h (Some {| data_type := Some "SAVE_OFFLINE"; data_url := u |})) ;;
        detached
          (cache <- Host.caches_open OFFLINE_SONGS ;;
           detached
             (catch
                (cache_add v h cache u ;;
                 showToast (dquote +:+ title +:+ dquote +:+ " saved for offline reading!") "success")
                (fun err =>
                   showToast "Failed to save song offline" "error" ;;
                   Host.console_line Error "Offline save failed:")))
    end
  else showToast "Offline mode not supported in this browser" "warning".

End App.

(** ** The worker as a state machine *)

(** The events the browser dispatches to the listeners a revision
    registers with [self.addEventListener]. *)
Inductive Event :=
| Install
| Activate
| Fetch (req : Request)
| Message (data : option MessageData).

Definition install (v : Revision) : Host.t -> Promise unit :=
  match v with Rev1 => V5.install | Rev2 => V7.install end.

(** The state one event leaves. *)
Definition handle (v : Revision) (h : Host.t) (e : Event) (s : State) : State :=
  match e with
  | Install => (install v h s).2
  | Activate => (run_activate v s).2
  | Fetch req => (run_fetch (on_fetch v h req) s).2
  | Message data => (on_message v h data s).2
  end.

(** A trace: the events in the order they are handled, each with the host
    (the network) as it is at that time. *)
Definition run (v : Revision) (trace : list (Host.t * Event)) (s : State) : State :=
  foldl (fun s he => handle v he.1 he.2 s) s trace.

(** A promise keeps a property of the cache storage. *)
Definition keeps (Q : CacheStorage -> Prop) {A} (p : Promise A) : Prop :=
  forall s, Q (caches s) -> Q (caches (p s).2).

(** A promise never rejects. *)
Definition fulfils {A} (p : Promise A) : Prop :=
  forall s, exists a, (p s).1 = Fulfilled a.

(** [cache.add] and [cache.addAll] can take the URL [u]: its fetch
    resolves with [r], which is ok. *)
Definition fetchable (h : Host.t) (u : string) (r : Response) : Prop :=
  Host.network h (Host.request_of h u "default") = Some r /\ Host.addable r = true.

(** The cache names of a store are pairwise distinct. *)
Definition distinct_names (cs : CacheStorage) : Prop := NoDup (Host.storage_keys cs).

(** ** Concrete hosts, requests and states used in the examples *)

Module Ex.

Definition site : string := "https://songs.example".
Definition cdn : string := "https://cdn.example".

Definition fresh : Response := {| status := 200; type := "basic"; body := "fresh" |}.
Definition stored : Response := {| status := 200; type := "basic"; body := "stored" |}.
Definition offline_page : Response := {| status := 200; type := "basic"; body := "offline" |}.
Definition not_found : Response := {| status := 404; type := "basic"; body := "not found" |}.

(** A network that answers every request with [fresh]. *)
Definition online : Host.t := Host.mk site (fun _ => Some fresh).
(** A network that answers every request with a 404. *)
Definition missing : Host.t := Host.mk site (fun _ => Some not_found).
(** No network. *)
Definition offline : Host.t := Host.mk site (fun _ => None).
(** A network on which only [/offline/] cannot be fetched. *)
Definition flaky : Host.t :=
  Host.mk site (fun r => if decide (pathname (url r) = "/offline/") then None else Some fresh).

Definition get (o path m : string) : Request :=
  {| url := {| origin := o; pathname := path |};
     method := "GET"; mode := m; cache_mode := "default" |}.
Definition post (o path m : string) : Request :=
  {| url := {| origin := o; pathname := path |};
     method := "POST"; mode := m; cache_mode := "default" |}.

Definition with_store (cs : CacheStorage) : State := with_caches cs initial.

(** A store holding a stale generation, the page's own cache and the
    current generation of revision [v], whose cache holds the home page
    and the offline page. *)
Definition populated (v : Revision) : State :=
  with_store
    [ ("ayyappa-songs-v4-cache", {[ site +:+ "/" := stored ]});
      (CACHE_NAME v, {[ site +:+ "/" := stored; site +:+ "/offline/" := offline_page ]});
      ("ayyappa-offline-songs", {[ site +:+ "/songs/view/7/" := stored ]}) ].


End Ex.

(** ** CacheStorage lemmas *)

Lemma filter_agree {A} (P Q : A → Prop)
    `{!∀ x, Decision (P x), !∀ x, Decision (Q x)} (l : list A) :
  (∀ x, x ∈ l → P x ↔ Q x) → filter P l = filter Q l.
Proof.
  induction l as [|a l IH]; intros HPQ; [done|].
  rewrite !filter_cons, IH by (intros; apply HPQ; by right).
  apply decide_ext, HPQ. by left.
Qed.

Lemma filter_everything {A} (P : A → Prop) `{!∀ x, Decision (P x)} (l : list A) :
  (∀ x, x ∈ l → P x) → filter P l = l.
Proof.
  induction l as [|a l IH]; intros HP; [done|].
  rewrite filter_cons_True by (apply HP; by left).
  f_equal. apply IH. intros; apply HP; by right.
Qed.

Section storage.
Implicit Types (cs : CacheStorage) (c : Cache) (name key : string).

Lemma storage_remove_filter name cs :
  Host.storage_remove name cs = filter (λ e, e.1 ≠ name) cs.
Proof.
  induction cs as [|[n c] cs IH]; [done|]. simpl.
  destruct (decide (n = name)) as [->|Hn].
  - by rewrite filter_cons_False by (simpl; tauto).
  - by rewrite filter_cons_True, IH by done.
Qed.

Lemma storage_get_filter current name cs :
  Host.storage_get name (filter (λ e, e.1 = current) cs)
  = if decide (name = current) then Host.storage_get name cs else None.
Proof.
  induction cs as [|[n c] cs IH]; simpl.
  - by destruct (decide (name = current)).
  - rewrite filter_cons. simpl. destruct (decide (n = current)) as [Hp|Hp]; simpl.
    + destruct (decide (n = name)) as [->|Hn]; [|done].
      by destruct (decide (name = current)).
    + rewrite IH. destruct (decide (n = name)) as [->|Hn]; [|done].
      by destruct (decide (name = current)).
Qed.

Lemma storage_keys_filter current cs :
  Host.storage_keys (filter (λ e, e.1 = current) cs)
  = filter (λ n, n = current) (Host.storage_keys cs).
Proof.
  unfold Host.storage_keys.
  induction cs as [|[n c] cs IH]; [done|].
  rewrite fmap_cons, !filter_cons. simpl.
  destruct (decide (n = current)); by rewrite ?fmap_cons, IH.
Qed.

(** With distinct names, keeping the caches called [name] leaves that
    name alone, or nothing. *)
Lemma filter_name_NoDup name (l : list string) :
  NoDup l → filter (λ n, n = name) l = if decide (name ∈ l) then [name] else [].
Proof.
  induction 1 as [|n l Hn Hl IH]; [done|].
  rewrite filter_cons. destruct (decide (n = name)) as [->|Hne].
  - rewrite decide_True by left. f_equal.
    rewrite IH, decide_False; done.
  - rewrite IH. destruct (decide (name ∈ l)) as [Hin|Hin].
    + by rewrite decide_True by (by right).
    + rewrite decide_False; [done|]. by intros [?|?]%elem_of_cons.
Qed.

Lemma storage_get_snoc name n c cs :
  Host.storage_get name (cs ++ [(n, c)])
  = match Host.storage_get name cs with
    | Some c' => Some c'
    | None => if decide (n = name) then Some c else None
    end.
Proof.
  induction cs as [|[n' c'] cs IH]; simpl; [done|].
  by destruct (decide (n' = name)).
Qed.

Lemma storage_get_set name name' c cs :
  Host.storage_get name' (Host.storage_set name c cs)
  = if decide (name = name') then Some c else Host.storage_get name' cs.
Proof.
  induction cs as [|[n c0] cs IH]; simpl.
  - by destruct (decide (name = name')).
  - destruct (decide (n = name)) as [->|Hn]; simpl.
    + by destruct (decide (name = name')).
    + rewrite IH. destruct (decide (n = name')) as [->|?]; [|done].
      by rewrite decide_False by done.
Qed.

Lemma entry_write name key r name' key' cs :
  Host.entry name' key' (Host.cache_write name key r cs)
  = if decide (name = name' ∧ key = key') then Some r else Host.entry name' key' cs.
Proof.
  unfold Host.entry, Host.cache_write. rewrite storage_get_set.
  destruct (decide (name = name')) as [->|Hn]; simpl.
  - rewrite lookup_insert.
    destruct (decide (key = key')) as [->|Hk].
    + by rewrite decide_True.
    + rewrite decide_False by tauto.
      by destruct (Host.storage_get name' cs).
  - by rewrite decide_False by tauto.
Qed.

Lemma entry_snoc_empty name key n cs :
  Host.entry name key (cs ++ [(n, ∅)]) = Host.entry name key cs.
Proof.
  unfold Host.entry. rewrite storage_get_snoc.
  destruct (Host.storage_get name cs); [done|].
  by destruct (decide (n = name)).
Qed.

End storage.

(** ** Activate: what the cleanup leaves *)

Section activate.

(** Both revisions run the same loop, up to logging: [step] deletes the
    cache it is given unless that is the current one, and touches nothing
    else of the store and no network. *)
Variable current : string.
Variable step : string → Promise (option bool).
Hypothesis step_spec : ∀ n s, ∃ v s',
  step n s = (Fulfilled v, s') ∧
  fetched s' = fetched s ∧
  caches s' = if decide (n ≠ current)
              then Host.storage_remove n (caches s) else caches s.

Lemma delete_loop (l : list string) (s : State) : ∃ vs s',
  Promise_all (map step l) s = (Fulfilled vs, s') ∧
  fetched s' = fetched s ∧
  caches s' = filter (λ e, e.1 = current ∨ e.1 ∉ l) (caches s).
Proof.
  revert s. induction l as [|n l IH]; intros s.
  - exists [], s. split_and!; [done..|].
    symmetry. apply filter_everything. intros e _. right. apply not_elem_of_nil.
  - simpl. destruct (step_spec n s) as (v & s1 & -> & Hf1 & Hc1).
    destruct (IH s1) as (vs & s2 & -> & Hf2 & Hc2).
    exists (v :: vs), s2. split_and!; [done|congruence|].
    rewrite Hc2, Hc1. destruct (decide (n ≠ current)) as [Hn|Hn].
    + rewrite storage_remove_filter, list_filter_filter.
      apply list_filter_iff. intros [m c]; simpl.
      rewrite not_elem_of_cons. intuition congruence.
    + apply dec_stable in Hn as ->.
      apply list_filter_iff. intros [m c]; simpl.
      rewrite not_elem_of_cons.
      destruct (decide (m = current)); tauto.
Qed.

Lemma delete_loop_keys (s : State) : ∃ vs s',
  Promise_all (map step (Host.storage_keys (caches s))) s = (Fulfilled vs, s') ∧
  fetched s' = fetched s ∧
  caches s' = filter (λ e, e.1 = current) (caches s).
Proof.
  destruct (delete_loop (Host.storage_keys (caches s)) s) as (vs & s' & H & Hf & Hc).
  exists vs, s'. split_and!; [done..|]. rewrite Hc.
  apply filter_agree. intros [m c] Hin; simpl.
  split; [|by left]. intros [?|Hout]; [done|].
  destruct Hout. unfold Host.storage_keys.
  by apply (list_elem_of_fmap_2 fst) in Hin.
Qed.

End activate.

Lemma V5_delete_old_spec (n : string) (s : State) : ∃ v s',
  V5.delete_old n s = (Fulfilled v, s') ∧
  fetched s' = fetched s ∧
  caches s' = if decide (n ≠ V5.CACHE_NAME)
              then Host.storage_remove n (caches s) else caches s.
Proof.
  unfold V5.delete_old. destruct (decide (n ≠ V5.CACHE_NAME)); eexists _, _; done.
Qed.

Lemma V7_delete_old_spec (n : string) (s : State) : ∃ v s',
  V7.delete_old n s = (Fulfilled v, s') ∧
  fetched s' = fetched s ∧
  caches s' = if decide (n ≠ V7.CACHE_NAME)
              then Host.storage_remove n (caches s) else caches s.
Proof.
  unfold V7.delete_old. destruct (decide (n ≠ V7.CACHE_NAME)); eexists _, _; done.
Qed.

(** The activate event of either revision fulfils, issues no network fetch
    and keeps exactly the caches called by the current name. *)
Lemma run_activate_caches (v : Revision) (s : State) : ∃ s',
  run_activate v s = (true, s') ∧
  fetched s' = fetched s ∧
  caches s' = filter (λ e, e.1 = CACHE_NAME v) (caches s).
Proof.
  destruct v; simpl.
  - unfold V5.activate, then_ at 1 2 3; simpl.
    destruct (delete_loop_keys V5.CACHE_NAME V5.delete_old V5_delete_old_spec
                (Host.clients_claim (Host.console_line Log "Cleaning old caches..." s).2).2)
      as (vs & s' & H & Hf & Hc).
    simpl in H. rewrite H. by exists s'.
  - unfold V7.activate, then_ at 1 2 3; simpl.
    destruct (delete_loop_keys V7.CACHE_NAME V7.delete_old V7_delete_old_spec
                (Host.clients_claim s).2) as (vs & s' & H & Hf & Hc).
    simpl in H. rewrite H. simpl. eexists; split_and!; [done| |]; done.
Qed.

(** C1.  On every store that holds the current generation of a revision
    (install opens it before activate runs) besides any number of other
    generations, under pairwise distinct names, the activate handler of
    that revision fulfils and leaves exactly one cache name, the current
    one: every cache with another name is gone, and the current generation
    is untouched. *)
Theorem activate_keeps_only_current (v : Revision) (s : State) :
  NoDup (Host.storage_keys (caches s)) →
  CACHE_NAME v ∈ Host.storage_keys (caches s) →
  (run_activate v s).1 = true ∧
  Host.storage_keys (caches (run_activate v s).2) = [CACHE_NAME v] ∧
  (∀ n, n ≠ CACHE_NAME v → Host.storage_get n (caches (run_activate v s).2) = None) ∧
  Host.storage_get (CACHE_NAME v) (caches (run_activate v s).2)
  = Host.storage_get (CACHE_NAME v) (caches s).
Proof.
  intros Hnd Hin. destruct (run_activate_caches v s) as (s' & -> & _ & Hc). simpl.
  rewrite Hc. split_and!.
  - done.
  - rewrite storage_keys_filter, filter_name_NoDup by done. by apply decide_True.
  - intros n Hn. by rewrite storage_get_filter, decide_False.
  - by rewrite storage_get_filter, decide_True.
Qed.

Lemma activate_keeps_only_current_witness :
  Host.storage_keys (caches (run_activate Rev1 (Ex.populated Rev1)).2) = [V5.CACHE_NAME] ∧
  Host.storage_get "ayyappa-songs-v4-cache" (caches (run_activate Rev1 (Ex.populated Rev1)).2)
  = None.
Proof.
  destruct (activate_keeps_only_current Rev1 (Ex.populated Rev1)) as (_ & Hk & Hgone & _);
    [compute_done|compute_done|].
  split; [exact Hk|by apply Hgone].
Defined.

(** ** The fetch handler *)

(** C2, as amended.  A GET request to a same-origin resource that has a
    cache entry is answered with that entry, and the state is left as it
    was (no network fetch, no cache write): by revision 1 for every request
    mode, by revision 2 for every request that is not a navigation. *)
Theorem cached_entry_served_without_network
    (v : Revision) (h : Host.t) (req : Request) (c : Response) (s : State) :
  method req = "GET" →
  origin (url req) = Host.location_origin h →
  Host.storage_match req (caches s) = Some c →
  (v = Rev2 → mode req ≠ "navigate") →
  run_fetch (on_fetch v h req) s = (Responded (Some c), s).
Proof.
  intros Hget Horigin Hhit Hmode. destruct v; simpl.
  - unfold V5.on_fetch. rewrite decide_False by (by intros []).
    simpl. unfold then_, Host.caches_match. by rewrite Hhit.
  - unfold V7.on_fetch. rewrite decide_False by (by intros []).
    rewrite decide_False by auto.
    simpl. unfold then_, Host.caches_match. by rewrite Hhit.
Qed.

Lemma cached_entry_served_without_network_witness :
  run_fetch (on_fetch Rev2 Ex.offline (Ex.get Ex.site "/" "cors")) (Ex.populated Rev2)
  = (Responded (Some Ex.stored), Ex.populated Rev2).
Proof.
  apply cached_entry_served_without_network; [done|done|by vm_compute|done].
Defined.

(** C2 as stated fails for navigations in revision 2: the home page is
    cached, yet the handler goes to the network and answers with what the
    network sent. *)
Lemma rev2_navigation_fetches_despite_cache_entry :
  method (Ex.get Ex.site "/" "navigate") = "GET" ∧
  origin (url (Ex.get Ex.site "/" "navigate")) = Host.location_origin Ex.online ∧
  Host.storage_match (Ex.get Ex.site "/" "navigate") (caches (Ex.populated Rev2))
  = Some Ex.stored ∧
  (run_fetch (on_fetch Rev2 Ex.online (Ex.get Ex.site "/" "navigate")) (Ex.populated Rev2)).1
  = Responded (Some Ex.fresh) ∧
  fetched (run_fetch (on_fetch Rev2 Ex.online (Ex.get Ex.site "/" "navigate"))
             (Ex.populated Rev2)).2
  = [Ex.get Ex.site "/" "navigate"].
Proof. split_and!; by vm_compute. Qed.

(** C3, as amended.  An intercepted request with no cache entry whose
    network fetch fails is answered by a fulfilled promise, after one
    network call and without a cache change.  A navigation gets what
    [caches.match] finds for the offline page: the cached Offline Fallback
    Page when there is one, no response otherwise.  Any other request gets
    the synthetic 408 response from revision 2 and no response (undefined)
    from revision 1. *)
Theorem network_failure_without_cache_entry
    (v : Revision) (h : Host.t) (req : Request) (s : State) :
  is_Some (on_fetch v h req) →
  Host.network h req = None →
  Host.storage_match req (caches s) = None →
  (run_fetch (on_fetch v h req) s).1
  = Responded
      (if decide (mode req = "navigate")
       then Host.storage_match (Host.request_of h (OFFLINE v) "default") (caches s)
       else match v with
            | Rev1 => None
            | Rev2 => Some (new_Response "Network error" 408)
            end) ∧
  fetched (run_fetch (on_fetch v h req) s).2 = req :: fetched s ∧
  caches (run_fetch (on_fetch v h req) s).2 = caches s.
Proof.
  intros Hint Hnet Hmiss.
  enough (∃ s', run_fetch (on_fetch v h req) s
                = (Responded
                     (if decide (mode req = "navigate")
                      then Host.storage_match
                             (Host.request_of h (OFFLINE v) "default") (caches s)
                      else match v with
                           | Rev1 => None
                           | Rev2 => Some (new_Response "Network error" 408)
                           end), s') ∧
                fetched s' = req :: fetched s ∧ caches s' = caches s)
    as (s' & -> & ? & ?) by done.
  destruct v; simpl in *.
  - unfold V5.on_fetch in *. destruct (decide (method req ≠ "GET")).
    { by destruct Hint. }
    simpl. unfold then_ at 1, Host.caches_match. rewrite Hmiss.
    unfold catch, then_ at 1, Host.fetch. rewrite Hnet.
    destruct (decide (mode req = "navigate")); by eexists.
  - unfold V7.on_fetch in *.
    destruct (decide (origin (url req) ≠ Host.location_origin h)).
    { by destruct Hint. }
    destruct (decide (mode req = "navigate")); simpl.
    + unfold catch, then_, Host.fetch. rewrite Hnet. by eexists.
    + unfold then_ at 1, Host.caches_match. rewrite Hmiss.
      unfold catch, then_ at 1, Host.fetch. rewrite Hnet. by eexists.
Qed.

Lemma network_failure_without_cache_entry_witness :
  (run_fetch (on_fetch Rev2 Ex.offline (Ex.get Ex.site "/songs/" "navigate"))
     (Ex.populated Rev2)).1
  = Responded (Some Ex.offline_page).
Proof.
  destruct (network_failure_without_cache_entry Rev2 Ex.offline
              (Ex.get Ex.site "/songs/" "navigate") (Ex.populated Rev2))
    as (H & _); [by eexists|done|by vm_compute|].
  rewrite H. by vm_compute.
Defined.

(** C3 as stated fails in revision 1 for a request that is not a
    navigation: the promise given to respondWith fulfils with undefined. *)
Lemma rev1_subresource_failure_yields_no_response :
  is_Some (on_fetch Rev1 Ex.offline (Ex.get Ex.site "/static/js/app.js" "no-cors")) ∧
  Host.network Ex.offline (Ex.get Ex.site "/static/js/app.js" "no-cors") = None ∧
  Host.storage_match (Ex.get Ex.site "/static/js/app.js" "no-cors")
    (caches (Ex.populated Rev1)) = None ∧
  mode (Ex.get Ex.site "/static/js/app.js" "no-cors") ≠ "navigate" ∧
  (run_fetch (on_fetch Rev1 Ex.offline (Ex.get Ex.site "/static/js/app.js" "no-cors"))
     (Ex.populated Rev1)).1
  = Responded None.
Proof. split_and!; [by eexists|done|by vm_compute|done|by vm_compute]. Qed.

(** The detached open-then-put both fetch handlers start: what it leaves. *)
Lemma open_put_spec (name0 : string) (req : Request) (r : Response) (s : State) :
  ∃ s',
    (cache <- Host.caches_open name0 ;; detached (Host.cache_put cache req r)) s
    = (Fulfilled tt, s') ∧
    fetched s' = fetched s ∧ console s' = console s ∧
    ∀ name key,
      Host.entry name key (caches s')
      = if decide (method req = "GET" ∧ status r ≠ 206 ∧
                   name0 = name ∧ href (url req) = key)
        then Some r else Host.entry name key (caches s).
Proof.
  unfold then_, Host.caches_open, detached, Host.cache_put.
  destruct (Host.storage_get name0 (caches s)) eqn:Hget;
    destruct (decide (method req = "GET")) as [Hm|Hm];
    try destruct (decide (status r = 206)) as [H206|H206];
    simpl; eexists; (split_and!; [done..|]); intros name key; simpl.
  all: rewrite ?entry_write, ?entry_snoc_empty.
  all: repeat case_decide; try done; exfalso; tauto.
Qed.

Lemma prefix_append (o p : string) : String.prefix o (o +:+ p) = true.
Proof.
  induction o as [|a o IH]; simpl; [by destruct p|].
  by destruct (Ascii.ascii_dec a a).
Qed.

(** C4, as amended.  A same-origin GET request with no cache entry whose
    network fetch succeeds (in revision 2: a request that is not a
    navigation) is answered with the network response itself, after one
    network call.  Revision 2 stores a clone under the request URL in its
    current generation exactly when the response is "basic" with status
    200; revision 1 stores a clone whatever the status and type are (only
    a 206, which the cache refuses, is not kept).  No other cache entry
    changes. *)
Theorem network_response_returned_and_stored
    (v : Revision) (h : Host.t) (req : Request) (resp : Response) (s : State) :
  method req = "GET" →
  origin (url req) = Host.location_origin h →
  (v = Rev2 → mode req ≠ "navigate") →
  Host.storage_match req (caches s) = None →
  Host.network h req = Some resp →
  (run_fetch (on_fetch v h req) s).1 = Responded (Some resp) ∧
  fetched (run_fetch (on_fetch v h req) s).2 = req :: fetched s ∧
  ∀ name key,
    Host.entry name key (caches (run_fetch (on_fetch v h req) s).2)
    = if decide (stores v resp ∧ CACHE_NAME v = name ∧ href (url req) = key)
      then Some (clone resp) else Host.entry name key (caches s).
Proof.
  intros Hget Horigin Hmode Hmiss Hnet.
  enough (∃ s', run_fetch (on_fetch v h req) s = (Responded (Some resp), s') ∧
                fetched s' = req :: fetched s ∧
                ∀ name key,
                  Host.entry name key (caches s')
                  = if decide (stores v resp ∧ CACHE_NAME v = name ∧ href (url req) = key)
                    then Some (clone resp) else Host.entry name key (caches s))
    as (s' & -> & ? & ?) by (simpl; auto).
  destruct v; simpl.
  - unfold V5.on_fetch. rewrite decide_False by (by intros []).
    simpl. unfold then_ at 1, Host.caches_match. rewrite Hmiss.
    unfold catch, then_ at 1, Host.fetch. rewrite Hnet.
    unfold href at 1. rewrite Horigin, prefix_append.
    unfold then_ at 1, detached at 1.
    match goal with |- context [ snd (?p ?s0) ] =>
      destruct (open_put_spec V5.CACHE_NAME req (clone resp) s0)
        as (s' & Hrun & Hf & _ & He)
    end.
    rewrite Hrun. simpl. exists s'. split_and!; [done|by rewrite Hf|].
    intros name key. rewrite He. apply decide_ext. unfold clone. tauto.
  - unfold V7.on_fetch. rewrite decide_False by (by intros []).
    rewrite decide_False by auto.
    simpl. unfold then_ at 1, Host.caches_match. rewrite Hmiss.
    unfold catch, then_ at 1, Host.fetch. rewrite Hnet.
    destruct (decide (status resp ≠ 200 ∨ type resp ≠ "basic")) as [Hno|Hyes].
    + simpl. eexists. split_and!; [done..|]. intros name key.
      rewrite decide_False; [done|]. simpl. tauto.
    + unfold then_ at 1, detached at 1.
      match goal with |- context [ snd (?p ?s0) ] =>
        destruct (open_put_spec V7.CACHE_NAME req (clone resp) s0)
          as (s' & Hrun & Hf & _ & He)
      end.
      rewrite Hrun. simpl. exists s'. split_and!; [done|by rewrite Hf|].
      intros name key. rewrite He. apply decide_ext. unfold clone.
      destruct (decide (status resp = 200)) as [H200|?]; [|tauto].
      destruct (decide (type resp = "basic")); [|tauto].
      rewrite H200. intuition lia.
Qed.

Lemma network_response_returned_and_stored_witness :
  (run_fetch (on_fetch Rev2 Ex.online (Ex.get Ex.site "/songs/" "cors")) initial).1
  = Responded (Some Ex.fresh) ∧
  Host.entry V7.CACHE_NAME (Ex.site +:+ "/songs/")
    (caches (run_fetch (on_fetch Rev2 Ex.online (Ex.get Ex.site "/songs/" "cors")) initial).2)
  = Some Ex.fresh.
Proof.
  destruct (network_response_returned_and_stored Rev2 Ex.online
              (Ex.get Ex.site "/songs/" "cors") Ex.fresh initial)
    as (Hr & _ & He); [done..|].
  split; [exact Hr|]. rewrite He. by apply decide_True.
Defined.

(** C4 as stated fails in revision 1: a 404 answer to a same-origin GET
    request is returned and also stored in the current generation. *)
Lemma rev1_stores_a_404_response :
  method (Ex.get Ex.site "/songs/view/99/" "cors") = "GET" ∧
  Host.storage_match (Ex.get Ex.site "/songs/view/99/" "cors") (caches initial) = None ∧
  Host.network Ex.missing (Ex.get Ex.site "/songs/view/99/" "cors") = Some Ex.not_found ∧
  status Ex.not_found ≠ 200 ∧
  Host.entry V5.CACHE_NAME (href (url (Ex.get Ex.site "/songs/view/99/" "cors")))
    (caches (run_fetch (on_fetch Rev1 Ex.missing (Ex.get Ex.site "/songs/view/99/" "cors"))
               initial).2)
  = Some Ex.not_found.
Proof. split_and!; by vm_compute. Qed.

(** C5, as amended.  Revision 1 passes every request whose method is not
    GET through untouched: respondWith is not called and the state is as
    before.  Revision 2 has no method guard: it passes such a request
    through exactly when it is cross-origin and otherwise intercepts it;
    whatever it answers, no cache entry is written, because the cache
    accepts GET requests only. *)
Theorem non_get_requests (h : Host.t) (req : Request) (s : State) :
  method req ≠ "GET" →
  run_fetch (V5.on_fetch h req) s = (PassedThrough, s) ∧
  (V7.on_fetch h req = None ↔ origin (url req) ≠ Host.location_origin h) ∧
  ∀ name key,
    Host.entry name key (caches (run_fetch (V7.on_fetch h req) s).2)
    = Host.entry name key (caches s).
Proof.
  intros Hm. split_and!.
  - unfold V5.on_fetch. by rewrite decide_True.
  - unfold V7.on_fetch.
    destruct (decide (origin (url req) ≠ Host.location_origin h)); [done|].
    by destruct (decide (mode req = "navigate")).
  - enough (∃ o s', run_fetch (V7.on_fetch h req) s = (o, s') ∧
                    ∀ name key, Host.entry name key (caches s')
                                = Host.entry name key (caches s))
      as (o & s' & -> & ?) by (simpl; auto).
    unfold V7.on_fetch.
    destruct (decide (origin (url req) ≠ Host.location_origin h)); [by eexists _, _|].
    destruct (decide (mode req = "navigate")); simpl.
    + unfold catch, then_, Host.fetch.
      destruct (Host.network h req); by eexists _, _.
    + unfold then_ at 1, Host.caches_match.
      destruct (Host.storage_match req (caches s)); [by eexists _, _|].
      unfold catch, then_ at 1, Host.fetch.
      destruct (Host.network h req) as [resp|]; [|by eexists _, _].
      destruct (decide (status resp ≠ 200 ∨ type resp ≠ "basic")); [by eexists _, _|].
      unfold then_ at 1, detached at 1.
      match goal with |- context [ snd (?p ?s0) ] =>
        destruct (open_put_spec V7.CACHE_NAME req (clone resp) s0)
          as (s' & Hrun & _ & _ & He)
      end.
      rewrite Hrun. simpl. eexists _, s'. split; [done|].
      intros name key. rewrite He. rewrite decide_False; [done|tauto].
Qed.

Lemma non_get_requests_witness :
  run_fetch (V5.on_fetch Ex.online (Ex.post Ex.site "/songs/delete/7/" "navigate")) initial
  = (PassedThrough, initial).
Proof. by apply non_get_requests. Defined.

(** C5 as stated fails in revision 2: a same-origin POST whose network
    fetch fails is answered with the synthetic 408 response. *)
Lemma rev2_answers_a_post_with_a_synthetic_response :
  method (Ex.post Ex.site "/songs/add/" "cors") ≠ "GET" ∧
  (run_fetch (V7.on_fetch Ex.offline (Ex.post Ex.site "/songs/add/" "cors")) initial).1
  = Responded (Some (new_Response "Network error" 408)).
Proof. split; by vm_compute. Qed.

(** C6, as amended.  Revision 2 leaves every cross-origin request to the
    browser: respondWith is not called and the state is as before.
    Revision 1 has no origin guard on interception: it passes a
    cross-origin request through only when its method is not GET, and
    otherwise answers it cache-first like any other; it writes no cache
    entry for a request whose URL does not begin with the worker's
    origin. *)
Theorem cross_origin_requests (h : Host.t) (req : Request) (s : State) :
  origin (url req) ≠ Host.location_origin h →
  run_fetch (V7.on_fetch h req) s = (PassedThrough, s) ∧
  (V5.on_fetch h req = None ↔ method req ≠ "GET") ∧
  (String.prefix (Host.location_origin h) (href (url req)) = false →
   ∀ name key,
     Host.entry name key (caches (run_fetch (V5.on_fetch h req) s).2)
     = Host.entry name key (caches s)).
Proof.
  intros Hx. split_and!.
  - unfold V7.on_fetch. by rewrite decide_True.
  - unfold V5.on_fetch. by destruct (decide (method req ≠ "GET")).
  - intros Hpre.
    enough (∃ o s', run_fetch (V5.on_fetch h req) s = (o, s') ∧ caches s' = caches s)
      as (o & s' & -> & Hc) by (simpl; by rewrite Hc).
    unfold V5.on_fetch.
    destruct (decide (method req ≠ "GET")); [by eexists _, _|]. simpl.
    unfold then_ at 1, Host.caches_match.
    destruct (Host.storage_match req (caches s)); [by eexists _, _|].
    unfold catch, then_ at 1, Host.fetch. rewrite Hpre.
    destruct (Host.network h req) as [resp|]; simpl; [by eexists _, _|].
    destruct (decide (mode req = "navigate")); by eexists _, _.
Qed.

Lemma cross_origin_requests_witness :
  run_fetch (V7.on_fetch Ex.online (Ex.get Ex.cdn "/tailwind.js" "no-cors")) initial
  = (PassedThrough, initial) ∧
  Host.entry V5.CACHE_NAME (Ex.cdn +:+ "/tailwind.js")
    (caches (run_fetch (V5.on_fetch Ex.online (Ex.get Ex.cdn "/tailwind.js" "no-cors"))
               initial).2)
  = None.
Proof.
  destruct (cross_origin_requests Ex.online (Ex.get Ex.cdn "/tailwind.js" "no-cors") initial)
    as (H7 & _ & H5); [done|].
  split; [exact H7|]. by rewrite H5.
Defined.

(** C6 as stated fails in revision 1: a cross-origin GET request is
    intercepted and answered by the handler. *)
Lemma rev1_intercepts_a_cross_origin_request :
  origin (url (Ex.get Ex.cdn "/tailwind.js" "no-cors")) ≠ Host.location_origin Ex.online ∧
  (run_fetch (on_fetch Rev1 Ex.online (Ex.get Ex.cdn "/tailwind.js" "no-cors")) initial).1
  = Responded (Some Ex.fresh).
Proof. split; by vm_compute. Qed.

(** Revision 1 tests the origin by string prefix; a foreign origin that
    extends the worker's origin passes the test and its response is
    stored. *)
Example rev1_prefix_check_takes_foreign_origin :
  origin (url (Ex.get (Ex.site +:+ ".evil.test") "/x" "cors")) ≠ Host.location_origin Ex.online ∧
  Host.entry V5.CACHE_NAME (Ex.site +:+ ".evil.test/x")
    (caches (run_fetch (V5.on_fetch Ex.online
                          (Ex.get (Ex.site +:+ ".evil.test") "/x" "cors")) initial).2)
  = Some Ex.fresh.
Proof. split; by vm_compute. Qed.

(** ** Adding a single URL: the message handler and the page script *)

(** [cache.add(path)] issues one fetch; it stores the response under the
    URL when the response is acceptable and writes nothing otherwise. *)
Lemma cache_add_spec (h : Host.t) (name0 path : string) (s : State) :
  ∃ r s',
    Host.cache_add h name0 path s = (r, s') ∧
    (r = Fulfilled tt ↔
     ∃ resp, Host.network h (Host.request_of h path "default") = Some resp ∧
             Host.addable resp = true) ∧
    fetched s' = Host.request_of h path "default" :: fetched s ∧
    ∀ name key,
      Host.entry name key (caches s')
      = match Host.network h (Host.request_of h path "default") with
        | Some resp =>
            if decide (Host.addable resp = true ∧ name0 = name ∧
                       Host.location_origin h +:+ path = key)
            then Some resp else Host.entry name key (caches s)
        | None => Host.entry name key (caches s)
        end.
Proof.
  unfold Host.cache_add, Host.fetch_ok, then_, Host.fetch.
  destruct (Host.network h (Host.request_of h path "default")) as [resp|] eqn:Hnet.
  - destruct (Host.addable resp) eqn:Hadd; simpl.
    + unfold Host.cache_put. simpl.
      assert (status resp ≠ 206) as H206.
      { unfold Host.addable in Hadd. apply andb_prop in Hadd as [_ Hadd].
        apply negb_true_iff, Z.eqb_neq in Hadd. done. }
      rewrite decide_False by done.
      eexists _, _. split_and!; [done| |done|].
      * split; [eauto|done].
      * intros name key. simpl. rewrite entry_write. unfold href; simpl.
        apply decide_ext. tauto.
    + eexists _, _. split_and!; [done| |done|].
      * split; [done|]. intros (resp' & [= <-] & Hadd'). congruence.
      * done.
  - eexists _, _. split_and!; [done| |done|done].
    split; [done|]. by intros (resp' & ? & _).
Qed.




(** ** Install *)

(** The fetches of [cache.addAll] write nothing and log nothing; they
    reject as soon as one manifest entry cannot be fetched with an ok
    response. *)
Lemma fetch_all_spec (h : Host.t) (paths : list string) (s : State) :
  ∃ r s',
    Promise_all (map (Host.fetch_ok h) paths) s = (r, s') ∧
    caches s' = caches s ∧ console s' = console s ∧
    skipped_waiting s' = skipped_waiting s ∧
    ((∃ u, u ∈ paths ∧
           ∀ resp, Host.network h (Host.request_of h u "default") = Some resp →
                   Host.addable resp = false) →
     ∃ e, r = Rejected e).
Proof.
  revert s. induction paths as [|p paths IH]; intros s.
  - eexists _, _. split_and!; [done..|]. by intros (u & ?%elem_of_nil & _).
  - simpl.
    assert (∃ r1 s1, Host.fetch_ok h p s = (r1, s1) ∧
                     caches s1 = caches s ∧ console s1 = console s ∧
                     skipped_waiting s1 = skipped_waiting s ∧
                     ((∀ resp, Host.network h (Host.request_of h p "default") = Some resp →
                               Host.addable resp = false) → ∃ e, r1 = Rejected e))
      as (r1 & s1 & -> & Hc1 & Hl1 & Hw1 & Hbad1).
    { unfold Host.fetch_ok, then_, Host.fetch.
      destruct (Host.network h (Host.request_of h p "default")) as [resp|].
      - destruct (Host.addable resp) eqn:Hadd; eexists _, _; (split_and!; [done..|]).
        + intros Hbad. specialize (Hbad _ eq_refl). congruence.
        + eauto.
      - eexists _, _. split_and!; [done..|]. eauto. }
    destruct (IH s1) as (r2 & s2 & -> & Hc2 & Hl2 & Hw2 & Hbad2).
    eexists _, _. split_and!; [done|congruence..|].
    intros (u & [->|Hin]%elem_of_cons & Hu).
    + destruct (Hbad1 Hu) as [e ->]. eauto.
    + destruct Hbad2 as [e ->]; [eauto|]. destruct r1; eauto.
Qed.

(** C8, as amended.  In revision 1, when the bulk add-all rejects because a
    manifest entry cannot be fetched with an ok response, the rejection is
    caught and logged with console.error: the promise extending the install
    event fulfils, so the install completes.  No cache entry has been
    written (add-all is all-or-nothing); the generation itself exists,
    empty unless it was there before. *)
Theorem rev1_install_completes_when_add_all_rejects (h : Host.t) (s : State) :
  (∃ u, u ∈ V5.urlsToCache ∧
        ∀ resp, Host.network h (Host.request_of h u "default") = Some resp →
                Host.addable resp = false) →
  (V5.install h s).1 = Fulfilled tt ∧
  head (console (V5.install h s).2) = Some (Error, "Cache add failed:") ∧
  skipped_waiting (V5.install h s).2 = true ∧
  is_Some (Host.storage_get V5.CACHE_NAME (caches (V5.install h s).2)) ∧
  ∀ name key,
    Host.entry name key (caches (V5.install h s).2) = Host.entry name key (caches s).
Proof.
  intros Hbad.
  enough (∃ s', V5.install h s = (Fulfilled tt, s') ∧
                head (console s') = Some (Error, "Cache add failed:") ∧
                skipped_waiting s' = true ∧
                is_Some (Host.storage_get V5.CACHE_NAME (caches s')) ∧
                ∀ name key, Host.entry name key (caches s')
                            = Host.entry name key (caches s))
    as (s' & -> & ? & ? & ? & ?) by (simpl; auto).
  unfold V5.install, then_ at 1 2. simpl.
  unfold catch, then_ at 1, Host.caches_open. simpl.
  match goal with |- context [ Host.storage_get _ ?cs ] => change cs with (caches s) end.
  assert (∃ s1,
            match Host.storage_get V5.CACHE_NAME (caches s) with
            | Some _ =>
                (Fulfilled V5.CACHE_NAME,
                 {| caches := caches s; fetched := fetched s;
                    console := (Log, "Service Worker: Installing...") :: console s;
                    toasts := toasts s;
                    skipped_waiting := true; claimed := claimed s |})
            | None =>
                (Fulfilled V5.CACHE_NAME,
                 with_caches (caches s ++ [(V5.CACHE_NAME, ∅)])
                   {| caches := caches s; fetched := fetched s;
                      console := (Log, "Service Worker: Installing...") :: console s;
                      toasts := toasts s;
                      skipped_waiting := true; claimed := claimed s |})
            end = (Fulfilled V5.CACHE_NAME, s1) ∧
            skipped_waiting s1 = true ∧
            is_Some (Host.storage_get V5.CACHE_NAME (caches s1)) ∧
            ∀ name key, Host.entry name key (caches s1)
                        = Host.entry name key (caches s))
    as (s1 & -> & Hw1 & Hg1 & He1).
  { destruct (Host.storage_get V5.CACHE_NAME (caches s)) eqn:Hget.
    - eexists. split_and!; [done..| |done]. simpl. by rewrite Hget.
    - eexists. split_and!; [done..| |].
      + simpl. rewrite storage_get_snoc, Hget. by rewrite decide_True.
      + intros; simpl. apply entry_snoc_empty. }
  unfold then_ at 1. simpl. unfold Host.cache_addAll, then_ at 1.
  match goal with |- context [ Promise_all (map (Host.fetch_ok h) _) ?s0 ] =>
    destruct (fetch_all_spec h V5.urlsToCache s0) as (r & s2 & Hrun & Hc2 & _ & Hw2 & Hrej)
  end.
  rewrite Hrun. destruct (Hrej Hbad) as [e ->]. simpl in *.
  eexists. split_and!; [done|done|simpl; congruence|by rewrite Hc2|].
  intros name key. simpl. by rewrite Hc2.
Qed.

Lemma rev1_install_completes_when_add_all_rejects_witness :
  (V5.install Ex.flaky initial).1 = Fulfilled tt ∧
  Host.entry V5.CACHE_NAME (Ex.site +:+ "/") (caches (V5.install Ex.flaky initial).2) = None.
Proof.
  destruct (rev1_install_completes_when_add_all_rejects Ex.flaky initial)
    as (Hr & _ & _ & _ & He).
  { exists "/offline/". split; [compute_done|]. intros resp. by vm_compute. }
  split; [exact Hr|]. by rewrite He.
Defined.

(** C8 as stated fails: with a network on which /offline/ cannot be
    fetched the bulk add-all rejects, and the install promise fulfils all
    the same. *)
Lemma rev1_install_fulfils_on_failed_manifest_fetch :
  "/offline/" ∈ V5.urlsToCache ∧
  Host.network Ex.flaky (Host.request_of Ex.flaky "/offline/" "default") = None ∧
  (Host.cache_addAll Ex.flaky V5.CACHE_NAME V5.urlsToCache initial).1
  = Rejected NetworkFailure ∧
  (V5.install Ex.flaky initial).1 = Fulfilled tt.
Proof. split_and!; [compute_done|by vm_compute..]. Qed.

(** ** The page's own cache and revision 1's cleanup *)

Lemma run_activate_rev1 (s : State) : (run_activate Rev1 s).2 = (V5.activate s).2.
Proof. simpl. by destruct (V5.activate s) as [[] ?]. Qed.

(** ** Revision 2's install: one manifest entry at a time *)

(** One manifest entry: the step always fulfils; it logs at most its own
    warning, touches no cache entry but its own, and does neither when the
    fetch resolved with a response that is not ok. *)
Lemma cache_one_spec (h : Host.t) (cache u : string) (s : State) :
  ∃ s',
    V7.cache_one h cache u s = (Fulfilled tt, s') ∧
    (console s' = console s ∨
     console s' = (Warn, "Failed to cache: " +:+ u) :: console s) ∧
    (∀ name key, Host.location_origin h +:+ u ≠ key →
                 Host.entry name key (caches s') = Host.entry name key (caches s)) ∧
    (∀ resp, Host.network h (Host.request_of h u "reload") = Some resp →
             ok resp = false →
             console s' = console s ∧ caches s' = caches s).
Proof.
  unfold V7.cache_one, catch, then_, Host.fetch.
  destruct (Host.network h (Host.request_of h u "reload")) as [resp|].
  - destruct (ok resp) eqn:Hok.
    + unfold Host.cache_put. simpl.
      destruct (decide (status resp = 206)); simpl.
      * eexists. split_and!; [done|by right|done|]. intros ? [= <-] ?; congruence.
      * eexists. split_and!; [done|by left| |intros ? [= <-] ?; congruence].
        intros name key Hkey. simpl. rewrite entry_write.
        apply decide_False. unfold href; simpl. tauto.
    + eexists. split_and!; [done|by left|done|done].
  - simpl. eexists. split_and!; [done|by right|done|done].
Qed.

Section install_target.

(** The manifest entry under watch: its fetch resolves with a response
    that is not ok. *)
Variables (h : Host.t) (cache u0 : string) (resp0 : Response).
Hypothesis Hnet0 : Host.network h (Host.request_of h u0 "reload") = Some resp0.
Hypothesis Hok0 : ok resp0 = false.

Lemma cache_all_spec (l : list string) (s : State) :
  ∃ vs s',
    Promise_all (map (V7.cache_one h cache) l) s = (Fulfilled vs, s') ∧
    (∃ new, console s' = (new ++ console s)%list ∧
            (Warn, "Failed to cache: " +:+ u0) ∉ new) ∧
    ∀ name, Host.entry name (Host.location_origin h +:+ u0) (caches s')
            = Host.entry name (Host.location_origin h +:+ u0) (caches s).
Proof.
  revert s. induction l as [|u l IH]; intros s.
  - eexists _, _. split_and!; [done| |done].
    exists []. split; [done|]. apply not_elem_of_nil.
  - simpl. destruct (cache_one_spec h cache u s) as (s1 & -> & Hcon & Hent & Hskip).
    destruct (IH s1) as (vs & s2 & -> & (new & Hnew & Hnot) & He).
    eexists _, _. split; [done|].
    destruct (decide (u = u0)) as [->|Hne].
    + destruct (Hskip _ Hnet0 Hok0) as [Hc1 Hs1]. split.
      * exists new. by rewrite Hnew, Hc1.
      * intros name. by rewrite He, Hs1.
    + split.
      * destruct Hcon as [Hc1|Hc1].
        -- exists new. by rewrite Hnew, Hc1.
        -- exists (new ++ [(Warn, "Failed to cache: " +:+ u)])%list. split.
           ++ by rewrite Hnew, Hc1, <- app_assoc.
           ++ rewrite not_elem_of_app. split; [done|].
              intros [= Heq%(inj _)]%list_elem_of_singleton. done.
      * intros name. rewrite He. apply Hent.
        by intros ?%(inj _).
Qed.

End install_target.

(** C10.  In revision 2's install, a manifest entry whose fetch resolves
    with a response that is not ok is skipped silently: the install promise
    fulfils, the lines the install adds to the console hold no warning for
    that entry, and no cache entry is written under its URL (it is absent
    from the generation unless it was there before). *)
Theorem rev2_install_skips_non_ok_entry_silently
    (h : Host.t) (u : string) (resp : Response) (s : State) :
  u ∈ V7.CACHE_URLS →
  Host.network h (Host.request_of h u "reload") = Some resp →
  ok resp = false →
  (V7.install h s).1 = Fulfilled tt ∧
  (∃ new, console (V7.install h s).2 = (new ++ console s)%list ∧
          (Warn, "Failed to cache: " +:+ u) ∉ new) ∧
  ∀ name, Host.entry name (Host.location_origin h +:+ u) (caches (V7.install h s).2)
          = Host.entry name (Host.location_origin h +:+ u) (caches s).
Proof.
  intros _ Hnet Hok.
  enough (∃ s', V7.install h s = (Fulfilled tt, s') ∧
                (∃ new, console s' = (new ++ console s)%list ∧
                        (Warn, "Failed to cache: " +:+ u) ∉ new) ∧
                ∀ name, Host.entry name (Host.location_origin h +:+ u) (caches s')
                        = Host.entry name (Host.location_origin h +:+ u) (caches s))
    as (s' & -> & ? & ?) by (simpl; auto).
  unfold V7.install. generalize V7.CACHE_URLS. intros urls.
  unfold then_ at 1 2, Host.caches_open. simpl.
  match goal with |- context [ Host.storage_get _ ?cs ] => change cs with (caches s) end.
  assert (∃ s1,
            match Host.storage_get V7.CACHE_NAME (caches s) with
            | Some _ =>
                (Fulfilled V7.CACHE_NAME,
                 {| caches := caches s; fetched := fetched s; console := console s;
                    toasts := toasts s;
                    skipped_waiting := true; claimed := claimed s |})
            | None =>
                (Fulfilled V7.CACHE_NAME,
                 with_caches (caches s ++ [(V7.CACHE_NAME, ∅)])
                   {| caches := caches s; fetched := fetched s; console := console s;
                      toasts := toasts s;
                      skipped_waiting := true; claimed := claimed s |})
            end = (Fulfilled V7.CACHE_NAME, s1) ∧
            console s1 = console s ∧
            ∀ name key, Host.entry name key (caches s1)
                        = Host.entry name key (caches s))
    as (s1 & -> & Hc1 & He1).
  { destruct (Host.storage_get V7.CACHE_NAME (caches s)).
    - by eexists.
    - eexists. split_and!; [done..|]. intros; simpl. apply entry_snoc_empty. }
  unfold then_.
  destruct (cache_all_spec h V7.CACHE_NAME u resp Hnet Hok urls s1)
    as (vs & s2 & -> & (new & Hnew & Hnot) & He2).
  eexists. split_and!; [done| |].
  - exists ((Log, "Service Worker v7 installed") :: new). split.
    + simpl. by rewrite Hnew, Hc1.
    + rewrite not_elem_of_cons. split; [done|done].
  - intros name. simpl. by rewrite He2, He1.
Qed.

Lemma rev2_install_skips_non_ok_entry_silently_witness :
  (V7.install Ex.missing initial).1 = Fulfilled tt ∧
  console (V7.install Ex.missing initial).2 = [(Log, "Service Worker v7 installed")] ∧
  Host.entry V7.CACHE_NAME (Ex.site +:+ "/offline/") (caches (V7.install Ex.missing initial).2)
  = None.
Proof.
  destruct (rev2_install_skips_non_ok_entry_silently Ex.missing "/offline/"
              Ex.not_found initial) as (Hr & _ & He); [compute_done|done|done|].
  split_and!; [exact Hr|by vm_compute|by rewrite He].
Defined.

(** * Invariants of the worker *)

(** ** Rules for [keeps] and [fulfils] over the promise combinators *)

Section rules.
Context (Q : CacheStorage → Prop).

Lemma keeps_resolve {A} (a : A) : keeps Q (resolve a).
Proof. by intros s. Qed.

Lemma keeps_reject {A} (e : Err) : keeps Q (reject (A:=A) e).
Proof. by intros s. Qed.

Lemma keeps_then {A B} (p : Promise A) (f : A → Promise B) :
  keeps Q p → (∀ a, keeps Q (f a)) → keeps Q (then_ p f).
Proof.
  intros Hp Hf s HQ. unfold then_. specialize (Hp s HQ).
  destruct (p s) as [[a|e] s1]; simpl in *; [by apply Hf|done].
Qed.

Lemma keeps_catch {A} (p : Promise A) (k : Err → Promise A) :
  keeps Q p → (∀ e, keeps Q (k e)) → keeps Q (catch p k).
Proof.
  intros Hp Hk s HQ. unfold catch. specialize (Hp s HQ).
  destruct (p s) as [[a|e] s1]; simpl in *; [done|by apply Hk].
Qed.

Lemma keeps_detached {A} (p : Promise A) : keeps Q p → keeps Q (detached p).
Proof. intros Hp s HQ. by apply Hp. Qed.

Lemma keeps_all {A B} (f : B → Promise A) (l : list B) :
  (∀ b, keeps Q (f b)) → keeps Q (Promise_all (map f l)).
Proof.
  intros Hf. induction l as [|b l IH]; intros s HQ; [done|]. simpl.
  specialize (Hf b s HQ). destruct (f b s) as [r s1]. simpl in Hf.
  specialize (IH s1 Hf). by destruct (Promise_all (map f l) s1) as [rs s2].
Qed.

(** Promises that leave the caches alone. *)
Lemma keeps_console l msg : keeps Q (Host.console_line l msg).
Proof. by intros s. Qed.

Lemma keeps_skipWaiting : keeps Q Host.skipWaiting.
Proof. by intros s. Qed.

Lemma keeps_claim : keeps Q Host.clients_claim.
Proof. by intros s. Qed.

Lemma keeps_fetch h req : keeps Q (Host.fetch h req).
Proof. intros s HQ. unfold Host.fetch. by destruct (Host.network h req). Qed.

Lemma keeps_match req : keeps Q (Host.caches_match req).
Proof. by intros s. Qed.

Lemma keeps_keys : keeps Q Host.caches_keys.
Proof. by intros s. Qed.

Lemma keeps_toast msg ty : keeps Q (App.showToast msg ty).
Proof. by intros s. Qed.

Lemma keeps_fetch_ok h path : keeps Q (Host.fetch_ok h path).
Proof.
  apply keeps_then; [apply keeps_fetch|]. intros r.
  destruct (Host.addable r); [apply keeps_resolve|apply keeps_reject].
Qed.

(** Opening, and writing into, the cache called [name0]. *)
Context (name0 : string).
Hypothesis Q_open : ∀ cs,
  Q cs → Host.storage_get name0 cs = None → Q (cs ++ [(name0, ∅)]).
Hypothesis Q_write : ∀ cs key r, Q cs → Q (Host.cache_write name0 key r cs).

Lemma keeps_open_then {B} (f : string → Promise B) :
  keeps Q (f name0) → keeps Q (then_ (Host.caches_open name0) f).
Proof.
  intros Hf s HQ. unfold then_, Host.caches_open.
  destruct (Host.storage_get name0 (caches s)) eqn:Hget.
  - by apply Hf.
  - apply Hf. simpl. by apply Q_open.
Qed.

Lemma keeps_put req r : keeps Q (Host.cache_put name0 req r).
Proof.
  intros s HQ. unfold Host.cache_put.
  destruct (decide (method req = "GET")); [|done].
  destruct (decide (status r = 206)); [done|]. simpl. by apply Q_write.
Qed.

Lemma keeps_add h path : keeps Q (Host.cache_add h name0 path).
Proof. apply keeps_then; [apply keeps_fetch_ok|]. intros r. apply keeps_put. Qed.

Lemma keeps_addAll h paths : keeps Q (Host.cache_addAll h name0 paths).
Proof.
  apply keeps_then; [apply keeps_all, keeps_fetch_ok|]. intros rs.
  apply keeps_then; [|intros; apply keeps_resolve].
  apply keeps_all. intros [p r]. apply keeps_put.
Qed.

Lemma keeps_open_put req r :
  keeps Q (detached (cache <- Host.caches_open name0 ;;
                     detached (Host.cache_put cache req r))).
Proof. apply keeps_detached, keeps_open_then, keeps_detached, keeps_put. Qed.

End rules.

Section fulfils_rules.

Lemma fulfils_resolve {A} (a : A) : fulfils (resolve a).
Proof. intros s. by eexists. Qed.

Lemma fulfils_then {A B} (p : Promise A) (f : A → Promise B) :
  fulfils p → (∀ a, fulfils (f a)) → fulfils (then_ p f).
Proof.
  intros Hp Hf s. unfold then_. destruct (Hp s) as [a Ha].
  destruct (p s) as [r s1]. simpl in Ha. subst r. apply Hf.
Qed.

Lemma fulfils_catch {A} (p : Promise A) (k : Err → Promise A) :
  (∀ e, fulfils (k e)) → fulfils (catch p k).
Proof.
  intros Hk s. unfold catch. destruct (p s) as [[a|e] s1]; [by eexists|apply Hk].
Qed.

Lemma fulfils_detached {A} (p : Promise A) : fulfils (detached p).
Proof. intros s. by eexists. Qed.

Lemma fulfils_all {A B} (f : B → Promise A) (l : list B) :
  (∀ b, fulfils (f b)) → fulfils (Promise_all (map f l)).
Proof.
  intros Hf. induction l as [|b l IH]; intros s; [by eexists|]. simpl.
  destruct (Hf b s) as [a Ha]. destruct (f b s) as [r s1]. simpl in Ha. subst r.
  destruct (IH s1) as [vs Hvs]. destruct (Promise_all (map f l) s1) as [rs s2].
  simpl in Hvs. subst rs. by eexists.
Qed.

Lemma fulfils_console l msg : fulfils (Host.console_line l msg).
Proof. intros s. by eexists. Qed.

Lemma fulfils_open name : fulfils (Host.caches_open name).
Proof.
  intros s. unfold Host.caches_open.
  destruct (Host.storage_get name (caches s)); by eexists.
Qed.

End fulfils_rules.

(** ** What every listener keeps *)

Lemma run_fetch_state (p : Promise (option Response)) (s : State) :
  (run_fetch (Some p) s).2 = (p s).2.
Proof. simpl. by destruct (p s) as [[] ?]. Qed.

Section handlers_keep.

(** A property of the store that survives the creation of the current
    generation of revision [v] and every write into it survives every
    install, fetch and message event of that revision. *)
Context (Q : CacheStorage → Prop) (v : Revision).
Hypothesis Q_open : ∀ cs,
  Q cs → Host.storage_get (CACHE_NAME v) cs = None → Q (cs ++ [(CACHE_NAME v, ∅)]).
Hypothesis Q_write : ∀ cs key r, Q cs → Q (Host.cache_write (CACHE_NAME v) key r cs).

Lemma keeps_install h : keeps Q (install v h).
Proof.
  destruct v; simpl in *.
  - unfold V5.install.
    apply keeps_then; [apply keeps_console|intros _].
    apply keeps_then; [apply keeps_skipWaiting|intros _].
    apply keeps_catch; [|intros; apply keeps_console].
    apply (keeps_open_then Q V5.CACHE_NAME Q_open).
    apply keeps_then; [apply keeps_console|intros _].
    by apply keeps_addAll.
  - unfold V7.install.
    apply keeps_then; [apply keeps_skipWaiting|intros _].
    apply (keeps_open_then Q V7.CACHE_NAME Q_open).
    apply keeps_then; [|intros; apply keeps_console].
    apply keeps_all. intros u. unfold V7.cache_one.
    apply keeps_catch; [|intros; apply keeps_console].
    apply keeps_then; [apply keeps_fetch|intros r].
    destruct (ok r); [by apply keeps_put|apply keeps_resolve].
Qed.

Lemma keeps_on_fetch h req p : on_fetch v h req = Some p → keeps Q p.
Proof.
  destruct v; simpl in *.
  - unfold V5.on_fetch. destruct (decide (method req ≠ "GET")); [done|].
    intros [= <-]. apply keeps_then; [apply keeps_match|intros [c|]].
    { apply keeps_resolve. }
    apply keeps_catch.
    + apply keeps_then; [apply keeps_fetch|intros r].
      apply keeps_then; [|intros; apply keeps_resolve].
      destruct (String.prefix _ _); [|apply keeps_resolve].
      by apply (keeps_open_put Q V5.CACHE_NAME).
    + intros _. destruct (decide (mode req = "navigate"));
        [apply keeps_match|apply keeps_resolve].
  - unfold V7.on_fetch.
    destruct (decide (origin (url req) ≠ Host.location_origin h)); [done|].
    destruct (decide (mode req = "navigate")); intros [= <-].
    + apply keeps_catch; [|intros; apply keeps_match].
      apply keeps_then; [apply keeps_fetch|intros; apply keeps_resolve].
    + apply keeps_then; [apply keeps_match|intros [c|]].
      { apply keeps_resolve. }
      apply keeps_catch; [|intros; apply keeps_resolve].
      apply keeps_then; [apply keeps_fetch|intros r].
      destruct (decide (status r ≠ 200 ∨ type r ≠ "basic")); [apply keeps_resolve|].
      apply keeps_then; [|intros; apply keeps_resolve].
      by apply (keeps_open_put Q V7.CACHE_NAME).
Qed.

Lemma keeps_on_message h data : keeps Q (on_message v h data).
Proof.
  destruct v; simpl in *; [|apply keeps_resolve].
  unfold V5.on_message. destruct data as [d|]; [|apply keeps_resolve].
  destruct (decide (data_type d = Some "SAVE_OFFLINE")); [|apply keeps_resolve].
  apply keeps_detached, (keeps_open_then Q V5.CACHE_NAME Q_open), keeps_detached.
  apply keeps_then; [by apply keeps_add|intros; apply keeps_console].
Qed.

Lemma keeps_handle h e s :
  e ≠ Activate → Q (caches s) → Q (caches (handle v h e s)).
Proof.
  intros He HQ. destruct e as [| |req|data]; simpl.
  - by apply keeps_install.
  - done.
  - destruct (on_fetch v h req) as [p|] eqn:Hp; [|done].
    rewrite run_fetch_state. by apply (keeps_on_fetch h req p).
  - by apply keeps_on_message.
Qed.

End handlers_keep.

(** ** Cache names *)

Lemma storage_get_None (name : string) (cs : CacheStorage) :
  Host.storage_get name cs = None ↔ name ∉ Host.storage_keys cs.
Proof.
  unfold Host.storage_keys. induction cs as [|[n c] cs IH]; simpl.
  - split; [intros _; apply not_elem_of_nil|done].
  - rewrite not_elem_of_cons. destruct (decide (n = name)) as [->|Hn].
    + split; [done|]. by intros [[] _].
    + rewrite IH. split; [by split|by intros [_ ?]].
Qed.

Lemma storage_keys_snoc (n : string) (c : Cache) (cs : CacheStorage) :
  Host.storage_keys (cs ++ [(n, c)]) = (Host.storage_keys cs ++ [n])%list.
Proof. unfold Host.storage_keys. by rewrite fmap_app. Qed.

Lemma storage_keys_set (name : string) (c : Cache) (cs : CacheStorage) :
  Host.storage_keys (Host.storage_set name c cs)
  = if decide (name ∈ Host.storage_keys cs)
    then Host.storage_keys cs else (Host.storage_keys cs ++ [name])%list.
Proof.
  unfold Host.storage_keys. induction cs as [|[n c0] cs IH].
  - by destruct (decide (name ∈ (([] : CacheStorage).*1))) as [?%elem_of_nil|].
  - cbn [Host.storage_set]. rewrite !fmap_cons. cbn [fst].
    destruct (decide (n = name)) as [->|Hn].
    + rewrite fmap_cons, decide_True; [done|by left].
    + rewrite fmap_cons, IH. cbn [fst].
      destruct (decide (name ∈ cs.*1)) as [Hin|Hin].
      * rewrite decide_True; [done|by right].
      * rewrite decide_False; [done|]. intros [?|?]%elem_of_cons; [done|done].
Qed.

Lemma storage_keys_remove (name : string) (cs : CacheStorage) :
  Host.storage_keys (Host.storage_remove name cs)
  = filter (λ n, n ≠ name) (Host.storage_keys cs).
Proof.
  unfold Host.storage_keys. induction cs as [|[n c] cs IH]; [done|]. simpl.
  rewrite filter_cons. destruct (decide (n = name)) as [->|Hn].
  - by rewrite decide_False by (intros ?; done).
  - by rewrite decide_True, fmap_cons, IH.
Qed.

Lemma distinct_names_open (name : string) (cs : CacheStorage) :
  distinct_names cs → Host.storage_get name cs = None →
  distinct_names (cs ++ [(name, ∅)]).
Proof.
  unfold distinct_names. intros Hnd Hget%storage_get_None.
  rewrite storage_keys_snoc. apply NoDup_app. split_and!; [done| |apply NoDup_singleton].
  by intros n Hn ->%list_elem_of_singleton.
Qed.

Lemma distinct_names_write (name key : string) (r : Response) (cs : CacheStorage) :
  distinct_names cs → distinct_names (Host.cache_write name key r cs).
Proof.
  unfold distinct_names, Host.cache_write. intros Hnd. rewrite storage_keys_set.
  destruct (decide (name ∈ Host.storage_keys cs)) as [Hin|Hin]; [done|].
  apply NoDup_app. split_and!; [done| |apply NoDup_singleton].
  by intros n Hn ->%list_elem_of_singleton.
Qed.

Lemma handle_activate_names (v : Revision) (h : Host.t) (s : State) :
  Host.storage_keys (caches (handle v h Activate s))
  = filter (λ n, n = CACHE_NAME v) (Host.storage_keys (caches s)).
Proof.
  simpl. destruct (run_activate_caches v s) as (s' & Hrun & _ & Hc).
  rewrite Hrun. simpl. rewrite Hc. apply storage_keys_filter.
Qed.

Lemma is_activate (e : Event) : e = Activate ∨ e ≠ Activate.
Proof. destruct e; [by right|by left|by right..]. Qed.

Lemma handle_keeps_distinct_names (v : Revision) (h : Host.t) (e : Event) (s : State) :
  distinct_names (caches s) → distinct_names (caches (handle v h e s)).
Proof.
  intros Hnd. destruct (is_activate e) as [->|He].
  - unfold distinct_names. rewrite handle_activate_names. by apply NoDup_filter.
  - apply keeps_handle; [|intros; by apply distinct_names_write|done..].
    intros; by apply distinct_names_open.
Qed.

Lemma run_distinct_names (v : Revision) (trace : list (Host.t * Event)) (s : State) :
  distinct_names (caches s) → distinct_names (caches (run v trace s)).
Proof.
  revert s. induction trace as [|[h e] trace IH]; intros s Hnd; [done|].
  simpl. by apply IH, handle_keeps_distinct_names.
Qed.

Lemma only_current_open (v : Revision) (cs : CacheStorage) :
  Forall (λ n, n = CACHE_NAME v) (Host.storage_keys cs) →
  Forall (λ n, n = CACHE_NAME v) (Host.storage_keys (cs ++ [(CACHE_NAME v, ∅)])).
Proof.
  intros H. rewrite storage_keys_snoc. apply Forall_app. split; [done|].
  by apply Forall_singleton.
Qed.

Lemma only_current_write (v : Revision) (key : string) (r : Response) (cs : CacheStorage) :
  Forall (λ n, n = CACHE_NAME v) (Host.storage_keys cs) →
  Forall (λ n, n = CACHE_NAME v)
    (Host.storage_keys (Host.cache_write (CACHE_NAME v) key r cs)).
Proof.
  intros H. unfold Host.cache_write. rewrite storage_keys_set.
  destruct (decide (CACHE_NAME v ∈ Host.storage_keys cs)); [done|].
  apply Forall_app. split; [done|]. by apply Forall_singleton.
Qed.

Lemma handle_keeps_only_current (v : Revision) (h : Host.t) (e : Event) (s : State) :
  Forall (λ n, n = CACHE_NAME v) (Host.storage_keys (caches s)) →
  Forall (λ n, n = CACHE_NAME v) (Host.storage_keys (caches (handle v h e s))).
Proof.
  intros Hall. destruct (is_activate e) as [->|He].
  - rewrite handle_activate_names. apply Forall_forall.
    by intros n [? _]%list_elem_of_filter.
  - apply (keeps_handle (λ cs, Forall (λ n, n = CACHE_NAME v) (Host.storage_keys cs)));
      [| |done..].
    + intros; by apply only_current_open.
    + intros; by apply only_current_write.
Qed.

(** X2.  Once a revision has handled an activate event, every cache name
    in the store is that revision's current name, and this stays so
    through all further events of that revision: the worker never creates
    a cache under another name. *)
Theorem after_activate_only_current_name
    (v : Revision) (before after : list (Host.t * Event)) (h : Host.t) (s : State) :
  Forall (λ n, n = CACHE_NAME v)
    (Host.storage_keys (caches (run v (before ++ (h, Activate) :: after) s))).
Proof.
  unfold run. rewrite foldl_app. simpl.
  generalize (foldl (λ s he, handle v he.1 he.2 s) s before). intros s0.
  assert (Forall (λ n, n = CACHE_NAME v)
            (Host.storage_keys (caches (run_activate v s0).2))) as Hinit.
  { change (run_activate v s0).2 with (handle v h Activate s0).
    rewrite handle_activate_names. apply Forall_forall.
    by intros n [? _]%list_elem_of_filter. }
  revert Hinit. generalize (run_activate v s0).2. clear s0 s.
  induction after as [|[h' e] after IH]; intros s Hall; [done|].
  simpl. by apply IH, handle_keeps_only_current.
Qed.

Lemma handle_keeps_name
    (v : Revision) (h : Host.t) (e : Event) (s : State) (name : string) :
  e ≠ Activate →
  name ∈ Host.storage_keys (caches s) →
  name ∈ Host.storage_keys (caches (handle v h e s)).
Proof.
  intros He H.
  apply (keeps_handle (λ cs, name ∈ Host.storage_keys cs)); [| |done..].
  - intros cs Hin _. rewrite storage_keys_snoc. apply elem_of_app. by left.
  - intros cs k r Hin. unfold Host.cache_write. rewrite storage_keys_set.
    destruct (decide (CACHE_NAME v ∈ Host.storage_keys cs)); [done|].
    apply elem_of_app. by left.
Qed.

(** X3.  Only activate deletes: an install, fetch or message event of
    either revision removes no cache and no cache entry (an entry may be
    replaced by a newer response). *)
Theorem only_activate_deletes
    (v : Revision) (h : Host.t) (e : Event) (s : State) (name key : string) :
  e ≠ Activate →
  (name ∈ Host.storage_keys (caches s) →
   name ∈ Host.storage_keys (caches (handle v h e s))) ∧
  (is_Some (Host.entry name key (caches s)) →
   is_Some (Host.entry name key (caches (handle v h e s)))).
Proof.
  intros He. split; intros H.
  - by apply handle_keeps_name.
  - apply (keeps_handle (λ cs, is_Some (Host.entry name key cs))); [| |done..].
    + intros cs Hin _. by rewrite entry_snoc_empty.
    + intros cs k r Hin. rewrite entry_write.
      by destruct (decide (CACHE_NAME v = name ∧ k = key)).
Qed.

Lemma only_activate_deletes_witness :
  "ayyappa-offline-songs"
    ∈ Host.storage_keys (caches (handle Rev1 Ex.flaky Install (Ex.populated Rev1))) ∧
  is_Some (Host.entry "ayyappa-offline-songs" (Ex.site +:+ "/songs/view/7/")
             (caches (handle Rev1 Ex.flaky Install (Ex.populated Rev1)))).
Proof.
  destruct (only_activate_deletes Rev1 Ex.flaky Install (Ex.populated Rev1)
              "ayyappa-offline-songs" (Ex.site +:+ "/songs/view/7/")) as [Hn He]; [done|].
  split; [apply Hn; compute_done|apply He; vm_compute; by eexists].
Defined.

(** X4.  The worker writes into its own generation only: an install, fetch
    or message event of a revision leaves every cache with another name
    exactly as it was. *)
Theorem other_caches_untouched
    (v : Revision) (h : Host.t) (e : Event) (s : State) (name : string) :
  e ≠ Activate → name ≠ CACHE_NAME v →
  Host.storage_get name (caches (handle v h e s)) = Host.storage_get name (caches s).
Proof.
  intros He Hname.
  apply (keeps_handle (λ cs, Host.storage_get name cs = Host.storage_get name (caches s)));
    [| |done..].
  - intros cs Hcs _. rewrite storage_get_snoc, Hcs.
    destruct (Host.storage_get name (caches s)); [done|].
    by rewrite decide_False.
  - intros cs k r Hcs. unfold Host.cache_write. rewrite storage_get_set.
    by rewrite decide_False.
Qed.

Lemma other_caches_untouched_witness :
  Host.storage_get "ayyappa-offline-songs"
    (caches (handle Rev2 Ex.online Install (Ex.populated Rev2)))
  = Host.storage_get "ayyappa-offline-songs" (caches (Ex.populated Rev2)).
Proof. by apply other_caches_untouched. Defined.

(** ** No listener rejects *)

Lemma fulfils_match req : fulfils (Host.caches_match req).
Proof. intros s. by eexists. Qed.

Lemma fulfils_skipWaiting : fulfils Host.skipWaiting.
Proof. intros s. by eexists. Qed.

Lemma fulfils_install (v : Revision) (h : Host.t) : fulfils (install v h).
Proof.
  destruct v; simpl.
  - unfold V5.install.
    apply fulfils_then; [apply fulfils_console|intros _].
    apply fulfils_then; [apply fulfils_skipWaiting|intros _].
    apply fulfils_catch. intros; apply fulfils_console.
  - unfold V7.install.
    apply fulfils_then; [apply fulfils_skipWaiting|intros _].
    apply fulfils_then; [apply fulfils_open|intros cache].
    apply fulfils_then; [|intros; apply fulfils_console].
    apply fulfils_all. intros u. unfold V7.cache_one.
    apply fulfils_catch. intros; apply fulfils_console.
Qed.

Lemma fulfils_on_fetch (v : Revision) (h : Host.t) (req : Request)
    (p : Promise (option Response)) :
  on_fetch v h req = Some p → fulfils p.
Proof.
  destruct v; simpl.
  - unfold V5.on_fetch. destruct (decide (method req ≠ "GET")); [done|].
    intros [= <-]. apply fulfils_then; [apply fulfils_match|intros [c|]].
    { apply fulfils_resolve. }
    apply fulfils_catch. intros _.
    destruct (decide (mode req = "navigate")); [apply fulfils_match|apply fulfils_resolve].
  - unfold V7.on_fetch.
    destruct (decide (origin (url req) ≠ Host.location_origin h)); [done|].
    destruct (decide (mode req = "navigate")); intros [= <-].
    + apply fulfils_catch. intros; apply fulfils_match.
    + apply fulfils_then; [apply fulfils_match|intros [c|]].
      { apply fulfils_resolve. }
      apply fulfils_catch. intros; apply fulfils_resolve.
Qed.

(** X5.  The promises the browser waits on never reject, whatever the
    store and the network are: in either revision the promise extending
    the install event always fulfils, and the promise given to respondWith
    never rejects. *)
Theorem listeners_never_reject (v : Revision) (h : Host.t) (s : State) :
  (install v h s).1 = Fulfilled tt ∧
  (∀ req e, (run_fetch (on_fetch v h req) s).1 ≠ Failed e).
Proof.
  split.
  - destruct (fulfils_install v h s) as [[] H]. done.
  - intros req e. destruct (on_fetch v h req) as [p|] eqn:Hp; [|done].
    destruct (fulfils_on_fetch v h req p Hp s) as [r Hr]. simpl.
    destruct (p s) as [r' s']. simpl in Hr. by subst r'.
Qed.

(** ** Revision 2's install: what is stored, what is logged *)

Lemma string_app_cancel (o u u' : string) : o +:+ u = o +:+ u' → u = u'.
Proof. apply (inj _). Qed.

(** A manifest entry fetched with an ok response is stored under its URL. *)
Lemma cache_one_stores (h : Host.t) (cache u : string) (r : Response) (s : State) :
  Host.network h (Host.request_of h u "reload") = Some r →
  ok r = true → status r ≠ 206 →
  ∃ s', V7.cache_one h cache u s = (Fulfilled tt, s') ∧
        console s' = console s ∧
        Host.entry cache (Host.location_origin h +:+ u) (caches s') = Some r.
Proof.
  intros Hnet Hok H206. unfold V7.cache_one, catch, then_, Host.fetch.
  rewrite Hnet, Hok. unfold Host.cache_put. simpl. rewrite decide_False by done.
  eexists. split_and!; [done..|]. simpl. rewrite entry_write.
  by rewrite decide_True.
Qed.

(** A manifest entry whose fetch fails leaves the caches alone and logs
    its warning. *)
Lemma cache_one_warns (h : Host.t) (cache u : string) (s : State) :
  Host.network h (Host.request_of h u "reload") = None →
  V7.cache_one h cache u s
  = (Fulfilled tt,
     (Host.console_line Warn ("Failed to cache: " +:+ u)
        (Host.fetch h (Host.request_of h u "reload") s).2).2).
Proof.
  intros Hnet. unfold V7.cache_one, catch, then_, Host.fetch. by rewrite Hnet.
Qed.

Lemma cache_all_stores (h : Host.t) (cache u0 : string) (r0 : Response)
    (l : list string) (s : State) :
  Host.network h (Host.request_of h u0 "reload") = Some r0 →
  ok r0 = true → status r0 ≠ 206 →
  u0 ∈ l ∨ Host.entry cache (Host.location_origin h +:+ u0) (caches s) = Some r0 →
  Host.entry cache (Host.location_origin h +:+ u0)
    (caches (Promise_all (map (V7.cache_one h cache) l) s).2) = Some r0.
Proof.
  intros Hnet Hok H206. revert s. induction l as [|u l IH]; intros s Hstart.
  - destruct Hstart as [?%elem_of_nil|?]; done.
  - simpl. destruct (decide (u = u0)) as [->|Hne].
    + destruct (cache_one_stores h cache u0 r0 s Hnet Hok H206) as (s1 & -> & _ & He).
      specialize (IH s1 (or_intror He)).
      by destruct (Promise_all (map (V7.cache_one h cache) l) s1).
    + destruct (cache_one_spec h cache u s) as (s1 & -> & _ & Hframe & _).
      assert (u0 ∈ l ∨ Host.entry cache (Host.location_origin h +:+ u0) (caches s1)
                        = Some r0) as Hnext.
      { destruct Hstart as [[?|?]%elem_of_cons|He]; [done|by left|right].
        rewrite Hframe; [done|]. by intros ?%string_app_cancel. }
      specialize (IH s1 Hnext).
      by destruct (Promise_all (map (V7.cache_one h cache) l) s1).
Qed.

Lemma cache_all_console (h : Host.t) (cache : string) (l : list string)
    (s : State) (line : Level * string) :
  line ∈ console s ∨
  (∃ u, u ∈ l ∧ Host.network h (Host.request_of h u "reload") = None ∧
        line = (Warn, "Failed to cache: " +:+ u)) →
  line ∈ console (Promise_all (map (V7.cache_one h cache) l) s).2.
Proof.
  revert s. induction l as [|u l IH]; intros s Hstart.
  - destruct Hstart as [?|(u & ?%elem_of_nil & _)]; done.
  - simpl.
    assert (line ∈ console (V7.cache_one h cache u s).2 ∨
            (∃ u', u' ∈ l ∧ Host.network h (Host.request_of h u' "reload") = None ∧
                   line = (Warn, "Failed to cache: " +:+ u'))) as Hnext.
    { destruct Hstart as [Hin|(u' & [->|Hin]%elem_of_cons & Hnet & ->)].
      - left. destruct (cache_one_spec h cache u s) as (s1 & -> & [Hc|Hc] & _);
          simpl; rewrite Hc; [done|by right].
      - left. rewrite (cache_one_warns _ _ _ _ Hnet). simpl. by left.
      - right. eauto. }
    destruct (V7.cache_one h cache u s) as [r1 s1]. simpl in Hnext.
    specialize (IH s1 Hnext).
    by destruct (Promise_all (map (V7.cache_one h cache) l) s1).
Qed.

Lemma caches_open_run (name : string) (s : State) :
  Host.caches_open name s = (Fulfilled name, (Host.caches_open name s).2).
Proof. unfold Host.caches_open. by destruct (Host.storage_get name (caches s)). Qed.

Lemma caches_open_console (name : string) (s : State) :
  console (Host.caches_open name s).2 = console s.
Proof. unfold Host.caches_open. by destruct (Host.storage_get name (caches s)). Qed.

(** The state revision 2's install leaves, from the state after the
    manifest loop. *)
Lemma V7_install_state (h : Host.t) (s : State) :
  ∃ s1, console s1 = console s ∧
        (∀ name key, Host.entry name key (caches s1) = Host.entry name key (caches s)) ∧
        (V7.install h s).2
        = (Host.console_line Log "Service Worker v7 installed"
             (Promise_all (map (V7.cache_one h V7.CACHE_NAME) V7.CACHE_URLS) s1).2).2.
Proof.
  assert (∀ s0, ∃ vs s2,
            Promise_all (map (V7.cache_one h V7.CACHE_NAME) V7.CACHE_URLS) s0
            = (Fulfilled vs, s2)) as Hloop.
  { intros s0.
    destruct (fulfils_all (V7.cache_one h V7.CACHE_NAME) V7.CACHE_URLS) with (s := s0)
      as [vs Hvs].
    - intros u. unfold V7.cache_one. apply fulfils_catch. intros; apply fulfils_console.
    - destruct (Promise_all _ s0) as [r s2]. simpl in Hvs. subst r. by eexists _, _. }
  exists (Host.caches_open V7.CACHE_NAME (Host.skipWaiting s).2).2.
  unfold V7.install. revert Hloop. generalize V7.CACHE_URLS. intros urls Hloop.
  split_and!.
  - unfold Host.caches_open. simpl. by destruct (Host.storage_get _ _).
  - intros name key. unfold Host.caches_open. simpl.
    destruct (Host.storage_get _ _); [done|]. simpl. apply entry_snoc_empty.
  - unfold then_ at 1 2. simpl. rewrite caches_open_run. cbn [snd]. unfold then_.
    match goal with |- context [ Promise_all _ ?s0 ] =>
      by destruct (Hloop s0) as (vs & s2 & ->) end.
Qed.

Lemma console_line_caches (l : Level) (msg : string) (s : State) :
  caches (Host.console_line l msg s).2 = caches s.
Proof. done. Qed.

Lemma console_line_console (l : Level) (msg : string) (s : State) :
  console (Host.console_line l msg s).2 = (l, msg) :: console s.
Proof. done. Qed.

Lemma cache_all_frame (h : Host.t) (cache u0 : string) (l : list string) (s : State) :
  (∀ s0, caches (V7.cache_one h cache u0 s0).2 = caches s0) →
  ∀ name,
    Host.entry name (Host.location_origin h +:+ u0)
      (caches (Promise_all (map (V7.cache_one h cache) l) s).2)
    = Host.entry name (Host.location_origin h +:+ u0) (caches s).
Proof.
  intros Hskip name. revert s. induction l as [|u l IH]; intros s; [done|].
  simpl. specialize (IH (V7.cache_one h cache u s).2).
  assert (Host.entry name (Host.location_origin h +:+ u0)
            (caches (V7.cache_one h cache u s).2)
          = Host.entry name (Host.location_origin h +:+ u0) (caches s)) as Hstep.
  { destruct (decide (u = u0)) as [->|Hne]; [by rewrite Hskip|].
    destruct (cache_one_spec h cache u s) as (s1 & -> & _ & Hframe & _).
    apply Hframe. by intros ?%string_app_cancel. }
  destruct (V7.cache_one h cache u s) as [r1 s1]. simpl in *.
  destruct (Promise_all (map (V7.cache_one h cache) l) s1). simpl in *. congruence.
Qed.

Lemma V7_install_entry (h : Host.t) (u : string) (r : Response) (s : State) :
  u ∈ V7.CACHE_URLS →
  Host.network h (Host.request_of h u "reload") = Some r →
  ok r = true → status r ≠ 206 →
  Host.entry V7.CACHE_NAME (Host.location_origin h +:+ u) (caches (V7.install h s).2)
  = Some r.
Proof.
  intros Hin Hnet Hok H206.
  destruct (V7_install_state h s) as (s1 & _ & _ & ->).
  rewrite console_line_caches. apply cache_all_stores; auto.
Qed.

(** X6.  Revision 2's install stores every manifest entry whose fetch
    resolves with an ok response (other than a 206): after the install the
    response is the entry under that URL in the current generation,
    whatever happens to the other manifest entries. *)
Theorem rev2_install_stores_ok_entry
    (h : Host.t) (u : string) (r : Response) (s : State) :
  u ∈ V7.CACHE_URLS →
  Host.network h (Host.request_of h u "reload") = Some r →
  ok r = true → status r ≠ 206 →
  Host.entry V7.CACHE_NAME (Host.location_origin h +:+ u) (caches (V7.install h s).2)
  = Some r.
Proof.
  apply V7_install_entry.
Qed.

Lemma rev2_install_stores_ok_entry_witness :
  Host.entry V7.CACHE_NAME (Ex.site +:+ "/static/manifest.json")
    (caches (V7.install Ex.flaky initial).2)
  = Some Ex.fresh.
Proof.
  apply (rev2_install_stores_ok_entry Ex.flaky "/static/manifest.json" Ex.fresh initial);
    [compute_done|done|done|done].
Defined.

(** X7.  Revision 2's install is best-effort: a manifest entry whose fetch
    fails gets its warning on the console and no cache entry is written
    under its URL, while the install still fulfils. *)
Theorem rev2_install_warns_on_failed_fetch (h : Host.t) (u : string) (s : State) :
  u ∈ V7.CACHE_URLS →
  Host.network h (Host.request_of h u "reload") = None →
  (V7.install h s).1 = Fulfilled tt ∧
  (Warn, "Failed to cache: " +:+ u) ∈ console (V7.install h s).2 ∧
  ∀ name,
    Host.entry name (Host.location_origin h +:+ u) (caches (V7.install h s).2)
    = Host.entry name (Host.location_origin h +:+ u) (caches s).
Proof.
  intros Hin Hnet. split_and!.
  - destruct (fulfils_install Rev2 h s) as [[] H]. done.
  - destruct (V7_install_state h s) as (s1 & _ & _ & ->).
    rewrite console_line_console. right.
    apply cache_all_console. right. eauto.
  - intros name. destruct (V7_install_state h s) as (s1 & _ & He & ->).
    rewrite console_line_caches, cache_all_frame; [done|].
    intros s0. rewrite (cache_one_warns _ _ _ _ Hnet). simpl.
    unfold Host.fetch. by rewrite Hnet.
Qed.

Lemma rev2_install_warns_on_failed_fetch_witness :
  (V7.install Ex.flaky initial).1 = Fulfilled tt ∧
  (Warn, "Failed to cache: /offline/") ∈ console (V7.install Ex.flaky initial).2 ∧
  Host.entry V7.CACHE_NAME (Ex.site +:+ "/offline/") (caches (V7.install Ex.flaky initial).2)
  = None.
Proof.
  destruct (rev2_install_warns_on_failed_fetch Ex.flaky "/offline/" initial)
    as (Hr & Hw & He); [compute_done|done|].
  split_and!; [exact Hr|exact Hw|by rewrite He].
Defined.

(** ** Revision 1's install when the whole manifest can be fetched *)

Lemma Forall2_zip {A B} (P : A → B → Prop) (l : list A) (k : list B) :
  Forall2 P l k → Forall (λ pr, P pr.1 pr.2) (zip l k).
Proof. induction 1; simpl; by constructor. Qed.

Lemma fetch_all_ok (h : Host.t) (paths : list string) (s : State) :
  (∀ u, u ∈ paths → ∃ r, fetchable h u r) →
  ∃ rs s',
    Promise_all (map (Host.fetch_ok h) paths) s = (Fulfilled rs, s') ∧
    caches s' = caches s ∧ console s' = console s ∧
    Forall2 (fetchable h) paths rs.
Proof.
  revert s. induction paths as [|p paths IH]; intros s Hall.
  - eexists _, _. split_and!; [done..|]. constructor.
  - simpl. destruct (Hall p) as (r & Hnet & Hadd); [by left|].
    assert (Host.fetch_ok h p s = (Fulfilled r, (Host.fetch h (Host.request_of h p "default") s).2))
      as ->.
    { unfold Host.fetch_ok, then_, Host.fetch. by rewrite Hnet, Hadd. }
    destruct (IH (Host.fetch h (Host.request_of h p "default") s).2)
      as (rs & s2 & -> & Hc & Hl & Hrs).
    { intros u Hu. apply Hall. by right. }
    eexists _, _. split_and!; [done| | |by constructor].
    + rewrite Hc. unfold Host.fetch. by rewrite Hnet.
    + rewrite Hl. unfold Host.fetch. by rewrite Hnet.
Qed.

Lemma addable_not_206 (r : Response) : Host.addable r = true → status r ≠ 206.
Proof.
  unfold Host.addable. intros [_ H]%andb_prop.
  by apply negb_true_iff, Z.eqb_neq in H.
Qed.

Lemma put_all_ok (h : Host.t) (name : string) (prs : list (string * Response)) (s : State) :
  Forall (λ pr, fetchable h pr.1 pr.2) prs →
  ∃ vs s',
    Promise_all (map (fun pr => Host.cache_put name (Host.request_of h pr.1 "default") pr.2)
                     prs) s = (Fulfilled vs, s') ∧
    console s' = console s ∧
    ∀ u r, fetchable h u r →
           u ∈ prs.*1 ∨ Host.entry name (Host.location_origin h +:+ u) (caches s) = Some r →
           Host.entry name (Host.location_origin h +:+ u) (caches s') = Some r.
Proof.
  revert s. induction prs as [|[p rp] prs IH]; intros s Hall.
  - eexists _, _. split_and!; [done..|].
    intros u r _ [?%elem_of_nil|?]; done.
  - apply Forall_cons in Hall as [[Hnetp Haddp] Hall]. simpl in *.
    unfold Host.cache_put at 1. simpl.
    rewrite decide_False by by apply addable_not_206.
    match goal with |- context [ Promise_all _ ?s0 ] =>
      destruct (IH s0 Hall) as (vs & s2 & -> & Hl & He) end.
    eexists _, _. split_and!; [done|done|].
    intros u r [Hnet Hadd] Hstart. apply He; [done|].
    destruct (decide (p = u)) as [->|Hne].
    + right. simpl. rewrite entry_write, decide_True; [congruence|done].
    + destruct Hstart as [[?|?]%elem_of_cons|Hent]; [done|by left|right].
      simpl. rewrite entry_write, decide_False; [done|].
      unfold href; simpl. intros [_ ?%string_app_cancel]. done.
Qed.

Lemma V5_install_ok (h : Host.t) (s : State) :
  (∀ u, u ∈ V5.urlsToCache → ∃ r, fetchable h u r) →
  (V5.install h s).1 = Fulfilled tt ∧
  console (V5.install h s).2
  = (Log, "Caching core resources") :: (Log, "Service Worker: Installing...") :: console s ∧
  ∀ u r, u ∈ V5.urlsToCache → fetchable h u r →
         Host.entry V5.CACHE_NAME (Host.location_origin h +:+ u) (caches (V5.install h s).2)
         = Some r.
Proof.
  intros Hall.
  enough (∃ s', V5.install h s = (Fulfilled tt, s') ∧
                console s'
                = (Log, "Caching core resources")
                    :: (Log, "Service Worker: Installing...") :: console s ∧
                ∀ u r, u ∈ V5.urlsToCache → fetchable h u r →
                       Host.entry V5.CACHE_NAME (Host.location_origin h +:+ u) (caches s')
                       = Some r)
    as (s' & -> & ? & ?) by (simpl; auto).
  unfold V5.install. revert Hall. generalize V5.urlsToCache. intros urls Hall.
  unfold then_ at 1 2. simpl. unfold catch, then_ at 1.
  rewrite caches_open_run. unfold then_ at 1. simpl.
  unfold Host.cache_addAll, then_ at 1.
  match goal with |- context [ Promise_all (map (Host.fetch_ok h) urls) ?s0 ] =>
    destruct (fetch_all_ok h urls s0 Hall) as (rs & s1 & -> & Hc1 & Hl1 & Hrs) end.
  unfold then_ at 1.
  destruct (put_all_ok h V5.CACHE_NAME (zip urls rs) s1) as (vs & s2 & -> & Hl2 & He).
  { by apply Forall2_zip. }
  simpl. eexists. split_and!; [done| |].
  - rewrite Hl2, Hl1. simpl. by rewrite caches_open_console.
  - intros u r Hin Hf. apply He; [done|]. left.
    rewrite fst_zip; [done|]. by rewrite (Forall2_length _ _ _ Hrs).
Qed.

(** X8.  When every manifest entry can be fetched with an ok response,
    revision 1's install fulfils, logs no error, and leaves every manifest
    entry retrievable from the current generation. *)
Theorem rev1_install_stores_manifest (h : Host.t) (s : State) :
  (∀ u, u ∈ V5.urlsToCache → ∃ r, fetchable h u r) →
  (V5.install h s).1 = Fulfilled tt ∧
  console (V5.install h s).2
  = (Log, "Caching core resources") :: (Log, "Service Worker: Installing...") :: console s ∧
  ∀ u r, u ∈ V5.urlsToCache → fetchable h u r →
         Host.entry V5.CACHE_NAME (Host.location_origin h +:+ u) (caches (V5.install h s).2)
         = Some r.
Proof. apply V5_install_ok. Qed.

Lemma rev1_install_stores_manifest_witness :
  (V5.install Ex.online initial).1 = Fulfilled tt ∧
  Host.entry V5.CACHE_NAME (Ex.site +:+ "/songs/") (caches (V5.install Ex.online initial).2)
  = Some Ex.fresh.
Proof.
  destruct (rev1_install_stores_manifest Ex.online initial) as (Hr & _ & He).
  { intros u _. by exists Ex.fresh. }
  split; [exact Hr|]. apply (He "/songs/" Ex.fresh); clear; [compute_done|done].
Defined.

(** ** From install to activate *)

Lemma caches_open_present (name : string) (s : State) :
  name ∈ Host.storage_keys (caches (Host.caches_open name s).2).
Proof.
  unfold Host.caches_open. destruct (Host.storage_get name (caches s)) eqn:Hget; simpl.
  - apply dec_stable. intros Hout%storage_get_None. congruence.
  - rewrite storage_keys_snoc. apply elem_of_app. right. by left.
Qed.

Lemma present_write (name name' key : string) (r : Response) (cs : CacheStorage) :
  name ∈ Host.storage_keys cs →
  name ∈ Host.storage_keys (Host.cache_write name' key r cs).
Proof.
  intros Hin. unfold Host.cache_write. rewrite storage_keys_set.
  destruct (decide (name' ∈ Host.storage_keys cs)); [done|].
  apply elem_of_app. by left.
Qed.

(** Install creates the current generation. *)
Lemma install_creates_generation (v : Revision) (h : Host.t) (s : State) :
  CACHE_NAME v ∈ Host.storage_keys (caches (install v h s).2).
Proof.
  set (Q := λ cs : CacheStorage, CACHE_NAME v ∈ Host.storage_keys cs).
  assert (∀ cs, Q cs → Host.storage_get (CACHE_NAME v) cs = None →
                Q (cs ++ [(CACHE_NAME v, ∅)])%list) as Q_open.
  { intros cs Hin _. unfold Q. rewrite storage_keys_snoc. apply elem_of_app. by left. }
  assert (∀ cs key r, Q cs → Q (Host.cache_write (CACHE_NAME v) key r cs)) as Q_write.
  { intros cs key r Hin. by apply present_write. }
  destruct v; simpl in *.
  - unfold V5.install. generalize V5.urlsToCache. intros urls.
    unfold then_ at 1 2. simpl. unfold catch, then_ at 1.
    rewrite caches_open_run.
    match goal with |- context [ Host.caches_open _ ?s0 ] =>
      pose proof (caches_open_present V5.CACHE_NAME s0) as Hopen;
      revert Hopen; generalize (Host.caches_open V5.CACHE_NAME s0).2 end.
    intros s1 Hopen.
    assert (keeps Q (Host.console_line Log "Caching core resources" ;;
                     Host.cache_addAll h V5.CACHE_NAME urls)) as Hrest.
    { apply keeps_then; [apply keeps_console|intros _]. by apply keeps_addAll. }
    specialize (Hrest s1 Hopen).
    by destruct ((Host.console_line Log "Caching core resources" ;;
                  Host.cache_addAll h V5.CACHE_NAME urls) s1) as [[] ?].
  - unfold V7.install. generalize V7.CACHE_URLS. intros urls.
    unfold then_ at 1 2. simpl. rewrite caches_open_run.
    match goal with |- context [ Host.caches_open _ ?s0 ] =>
      pose proof (caches_open_present V7.CACHE_NAME s0) as Hopen;
      revert Hopen; generalize (Host.caches_open V7.CACHE_NAME s0).2 end.
    intros s1 Hopen.
    assert (keeps Q (Promise_all (map (V7.cache_one h V7.CACHE_NAME) urls) ;;
                     Host.console_line Log "Service Worker v7 installed")) as Hrest.
    { apply keeps_then; [|intros; apply keeps_console].
      apply keeps_all. intros u. unfold V7.cache_one.
      apply keeps_catch; [|intros; apply keeps_console].
      apply keeps_then; [apply keeps_fetch|intros r].
      destruct (ok r); [by apply keeps_put|apply keeps_resolve]. }
    by apply Hrest.
Qed.

Lemma handle_keeps_current (v : Revision) (h : Host.t) (e : Event) (s : State) :
  CACHE_NAME v ∈ Host.storage_keys (caches s) →
  CACHE_NAME v ∈ Host.storage_keys (caches (handle v h e s)).
Proof.
  intros Hin. destruct (is_activate e) as [->|He].
  - rewrite handle_activate_names. by apply list_elem_of_filter.
  - by apply handle_keeps_name.
Qed.

Lemma run_keeps_current (v : Revision) (trace : list (Host.t * Event)) (s : State) :
  CACHE_NAME v ∈ Host.storage_keys (caches s) →
  CACHE_NAME v ∈ Host.storage_keys (caches (run v trace s)).
Proof.
  revert s. induction trace as [|[h e] trace IH]; intros s Hin; [done|].
  simpl. by apply IH, handle_keeps_current.
Qed.

(** X9.  The lifecycle reaches the state the cleanup aims at: from a store
    with distinct cache names, after an install event, any further events
    and then an activate event of the same revision, the cache names are
    exactly the current name, whatever the network did. *)
Theorem install_then_activate_leaves_current_only
    (v : Revision) (h1 h2 : Host.t) (between : list (Host.t * Event)) (s : State) :
  distinct_names (caches s) →
  Host.storage_keys
    (caches (run v ((h1, Install) :: between ++ [(h2, Activate)]) s))
  = [CACHE_NAME v].
Proof.
  intros Hnd. unfold run. rewrite app_comm_cons, foldl_app. simpl.
  fold (run v between (handle v h1 Install s)).
  change (run_activate v ?s0).2 with (handle v h2 Activate s0).
  rewrite handle_activate_names, filter_name_NoDup.
  - apply decide_True, run_keeps_current, install_creates_generation.
  - apply run_distinct_names.
    by apply (handle_keeps_distinct_names v h1 Install).
Qed.

Lemma install_then_activate_leaves_current_only_witness :
  Host.storage_keys
    (caches (run Rev2 ((Ex.flaky, Install)
                         :: [(Ex.online, Fetch (Ex.get Ex.site "/songs/" "cors"))]
                         ++ [(Ex.offline, Activate)])
               (Ex.populated Rev1)))
  = [V7.CACHE_NAME].
Proof. apply install_then_activate_leaves_current_only. compute_done. Defined.

(** ** Looking a request up in the whole store *)

Lemma storage_match_None (req : Request) (cs : CacheStorage) :
  method req = "GET" → Host.storage_match req cs = None →
  ∀ name, Host.entry name (href (url req)) cs = None.
Proof.
  intros Hget. induction cs as [|[n c] cs IH]; intros Hmiss name; [done|].
  simpl in Hmiss. unfold Host.cache_match in Hmiss. rewrite decide_True in Hmiss by done.
  destruct (c !! href (url req)) eqn:Hc; [done|].
  unfold Host.entry. simpl. destruct (decide (n = name)); [done|]. by apply IH.
Qed.

Lemma storage_match_unique (req : Request) (r : Response) (cs : CacheStorage) :
  method req = "GET" → distinct_names cs →
  (∀ name, Host.entry name (href (url req)) cs = None ∨
           Host.entry name (href (url req)) cs = Some r) →
  (∃ name, Host.entry name (href (url req)) cs = Some r) →
  Host.storage_match req cs = Some r.
Proof.
  intros Hget. unfold distinct_names, Host.storage_keys.
  induction cs as [|[n c] cs IH]; intros Hnd Hall [name Hname]; [done|].
  apply NoDup_cons in Hnd as [Hn Hnd]. simpl in *.
  unfold Host.cache_match. rewrite decide_True by done.
  pose proof (Hall n) as Hfirst. unfold Host.entry in Hfirst. simpl in Hfirst.
  rewrite decide_True in Hfirst by done. simpl in Hfirst.
  destruct (c !! href (url req)) as [x|] eqn:Hc.
  { by destruct Hfirst. }
  assert (∀ name', name' ≠ n →
            Host.entry name' (href (url req)) ((n, c) :: cs)
            = Host.entry name' (href (url req)) cs) as Hother.
  { intros name' Hne. unfold Host.entry. simpl. by rewrite decide_False. }
  assert (Host.entry n (href (url req)) cs = None) as Hn_none.
  { unfold Host.entry. by apply storage_get_None in Hn as ->. }
  apply IH; [done| |].
  - intros name'. destruct (decide (name' = n)) as [->|Hne]; [by left|].
    rewrite <- Hother by done. apply Hall.
  - exists name. destruct (decide (name = n)) as [->|Hne].
    + unfold Host.entry in Hname. simpl in Hname.
      rewrite decide_True in Hname by done. simpl in Hname. congruence.
    + by rewrite <- Hother.
Qed.

Lemma storage_match_filter (req : Request) (name : string) (r : Response)
    (cs : CacheStorage) :
  method req = "GET" →
  Host.entry name (href (url req)) cs = Some r →
  Host.storage_match req (filter (λ e, e.1 = name) cs) = Some r.
Proof.
  intros Hget. induction cs as [|[n c] cs IH]; intros Hent; [done|].
  rewrite filter_cons. unfold Host.entry in Hent. simpl in *.
  destruct (decide (n = name)) as [->|Hne]; simpl in *.
  - unfold Host.cache_match. rewrite decide_True by done. by rewrite Hent.
  - by apply IH.
Qed.

Lemma handle_activate_caches (v : Revision) (h : Host.t) (s : State) :
  caches (handle v h Activate s) = filter (λ e, e.1 = CACHE_NAME v) (caches s).
Proof.
  simpl. destruct (run_activate_caches v s) as (s' & Hrun & _ & Hc).
  by rewrite Hrun.
Qed.

(** What a navigation gets when the network is down: revision 2 goes
    straight to the offline page, revision 1 looks the request up first. *)
Lemma navigation_offline_run (v : Revision) (h : Host.t) (req : Request) (s : State) :
  is_Some (on_fetch v h req) →
  mode req = "navigate" →
  Host.network h req = None →
  (run_fetch (on_fetch v h req) s).1
  = Responded
      (match v, Host.storage_match req (caches s) with
       | Rev1, Some c => Some c
       | _, _ => Host.storage_match (Host.request_of h (OFFLINE v) "default") (caches s)
       end).
Proof.
  intros Hint Hnav Hnet. destruct v; simpl in *.
  - unfold V5.on_fetch in *. destruct (decide (method req ≠ "GET")).
    { by destruct Hint. }
    simpl. unfold then_ at 1, Host.caches_match.
    destruct (Host.storage_match req (caches s)); [done|].
    unfold catch, then_ at 1, Host.fetch. rewrite Hnet.
    by rewrite decide_True.
  - unfold V7.on_fetch in *.
    destruct (decide (origin (url req) ≠ Host.location_origin h)).
    { by destruct Hint. }
    rewrite decide_True by done. simpl.
    unfold catch, then_, Host.fetch. by rewrite Hnet.
Qed.

(** X10.  Revision 2, end to end: if the install could fetch the offline
    page, then after activate a same-origin navigation that finds the
    network down is answered with exactly that page. *)
Theorem rev2_offline_navigation_after_install
    (h1 h2 h3 : Host.t) (req : Request) (page : Response) (s : State) :
  Host.network h1 (Host.request_of h1 V7.OFFLINE_URL "reload") = Some page →
  ok page = true → status page ≠ 206 →
  Host.location_origin h3 = Host.location_origin h1 →
  origin (url req) = Host.location_origin h3 →
  mode req = "navigate" →
  Host.network h3 req = None →
  (run_fetch (on_fetch Rev2 h3 req)
     (handle Rev2 h2 Activate (handle Rev2 h1 Install s))).1
  = Responded (Some page).
Proof.
  intros Hnet Hok H206 Hsame Horigin Hnav Hdown.
  rewrite navigation_offline_run; [|simpl; unfold V7.on_fetch|done|done].
  - f_equal. rewrite handle_activate_caches.
    apply storage_match_filter; [done|]. simpl. unfold href. simpl.
    rewrite Hsame. apply V7_install_entry; [compute_done|done..].
  - rewrite decide_False by (by intros []). by rewrite decide_True.
Qed.

Lemma rev2_offline_navigation_after_install_witness :
  (run_fetch (on_fetch Rev2 Ex.offline (Ex.get Ex.site "/songs/view/3/" "navigate"))
     (handle Rev2 Ex.online Activate
        (handle Rev2 Ex.online Install (Ex.populated Rev1)))).1
  = Responded (Some Ex.fresh).
Proof.
  apply (rev2_offline_navigation_after_install Ex.online Ex.online Ex.offline
           (Ex.get Ex.site "/songs/view/3/" "navigate") Ex.fresh (Ex.populated Rev1));
    done.
Defined.

(** X11.  Revision 1, end to end: if the install could fetch the whole
    manifest, then after activate a GET navigation that finds the network
    down always gets a response: the cached copy of the page asked for
    when there is one, the offline page otherwise. *)
Theorem rev1_offline_navigation_after_install
    (h1 h2 h3 : Host.t) (req : Request) (page : Response) (s : State) :
  (∀ u, u ∈ V5.urlsToCache → ∃ r, fetchable h1 u r) →
  fetchable h1 V5.OFFLINE_PAGE page →
  Host.location_origin h3 = Host.location_origin h1 →
  method req = "GET" →
  mode req = "navigate" →
  Host.network h3 req = None →
  (run_fetch (on_fetch Rev1 h3 req)
     (handle Rev1 h2 Activate (handle Rev1 h1 Install s))).1
  = Responded
      (Some (default page
               (Host.storage_match req
                  (caches (handle Rev1 h2 Activate (handle Rev1 h1 Install s)))))).
Proof.
  intros Hall Hpage Hsame Hget Hnav Hdown.
  rewrite navigation_offline_run; [|simpl; unfold V5.on_fetch|done|done].
  - f_equal. destruct (Host.storage_match req _); [done|].
    change (default page None) with page. cbv iota.
    rewrite handle_activate_caches.
    apply storage_match_filter; [done|]. simpl. unfold href. simpl.
    rewrite Hsame. destruct (V5_install_ok h1 s Hall) as (_ & _ & He).
    apply He; [compute_done|done].
  - by rewrite decide_False by (by intros []).
Qed.

Lemma rev1_offline_navigation_after_install_witness :
  (run_fetch (on_fetch Rev1 Ex.offline (Ex.get Ex.site "/songs/view/3/" "navigate"))
     (handle Rev1 Ex.online Activate (handle Rev1 Ex.online Install initial))).1
  = Responded (Some Ex.fresh).
Proof.
  rewrite (rev1_offline_navigation_after_install Ex.online Ex.online Ex.offline
             (Ex.get Ex.site "/songs/view/3/" "navigate") Ex.fresh initial);
    [by vm_compute| |done..].
  intros u _. by exists Ex.fresh.
Defined.

(** ** A response once stored is served from the cache *)

(** A hit: the cached entry is the answer and nothing changes. *)
Lemma fetch_hit_run (v : Revision) (h : Host.t) (req : Request) (c : Response) (s : State) :
  method req = "GET" →
  origin (url req) = Host.location_origin h →
  (v = Rev2 → mode req ≠ "navigate") →
  Host.storage_match req (caches s) = Some c →
  run_fetch (on_fetch v h req) s = (Responded (Some c), s).
Proof.
  intros Hget Horigin Hmode Hhit. destruct v; simpl.
  - unfold V5.on_fetch. rewrite decide_False by (by intros []).
    simpl. unfold then_, Host.caches_match. by rewrite Hhit.
  - unfold V7.on_fetch. rewrite decide_False by (by intros []).
    rewrite decide_False by auto.
    simpl. unfold then_, Host.caches_match. by rewrite Hhit.
Qed.

(** A miss answered by the network: the run and the entries it leaves. *)
Lemma fetch_miss_run (v : Revision) (h : Host.t) (req : Request) (resp : Response)
    (s : State) :
  method req = "GET" →
  origin (url req) = Host.location_origin h →
  (v = Rev2 → mode req ≠ "navigate") →
  Host.storage_match req (caches s) = None →
  Host.network h req = Some resp →
  ∃ s', run_fetch (on_fetch v h req) s = (Responded (Some resp), s') ∧
        ∀ name key,
          Host.entry name key (caches s')
          = if decide (stores v resp ∧ CACHE_NAME v = name ∧ href (url req) = key)
            then Some resp else Host.entry name key (caches s).
Proof.
  intros Hget Horigin Hmode Hmiss Hnet. destruct v; simpl.
  - unfold V5.on_fetch. rewrite decide_False by (by intros []).
    simpl. unfold then_ at 1, Host.caches_match. rewrite Hmiss.
    unfold catch, then_ at 1, Host.fetch. rewrite Hnet.
    unfold href at 1. rewrite Horigin, prefix_append.
    unfold then_ at 1, detached at 1.
    match goal with |- context [ snd (?p ?s0) ] =>
      destruct (open_put_spec V5.CACHE_NAME req (clone resp) s0)
        as (s' & Hrun & _ & _ & He)
    end.
    rewrite Hrun. simpl. exists s'. split; [done|].
    intros name key. rewrite He. apply decide_ext. unfold clone. tauto.
  - unfold V7.on_fetch. rewrite decide_False by (by intros []).
    rewrite decide_False by auto.
    simpl. unfold then_ at 1, Host.caches_match. rewrite Hmiss.
    unfold catch, then_ at 1, Host.fetch. rewrite Hnet.
    destruct (decide (status resp ≠ 200 ∨ type resp ≠ "basic")) as [Hno|Hyes].
    + simpl. eexists. split; [done|]. intros name key.
      rewrite decide_False; [done|]. simpl. tauto.
    + unfold then_ at 1, detached at 1.
      match goal with |- context [ snd (?p ?s0) ] =>
        destruct (open_put_spec V7.CACHE_NAME req (clone resp) s0)
          as (s' & Hrun & _ & _ & He)
      end.
      rewrite Hrun. simpl. exists s'. split; [done|].
      intros name key. rewrite He. apply decide_ext. unfold clone.
      destruct (decide (status resp = 200)) as [H200|?]; [|tauto].
      destruct (decide (type resp = "basic")); [|tauto].
      rewrite H200. intuition lia.
Qed.

(** X12.  A stored response is served from then on: when a same-origin
    GET request missed the cache, the network answered and the revision
    stored that answer, the same request asked again is answered with the
    stored response without any network fetch or state change, whatever
    the network does by then. *)
Theorem stored_response_is_served_again
    (v : Revision) (h h' : Host.t) (req : Request) (resp : Response) (s : State) :
  distinct_names (caches s) →
  method req = "GET" →
  origin (url req) = Host.location_origin h →
  Host.location_origin h' = Host.location_origin h →
  (v = Rev2 → mode req ≠ "navigate") →
  Host.storage_match req (caches s) = None →
  Host.network h req = Some resp →
  stores v resp →
  run_fetch (on_fetch v h' req) (handle v h (Fetch req) s)
  = (Responded (Some resp), handle v h (Fetch req) s).
Proof.
  intros Hnd Hget Horigin Hsame Hmode Hmiss Hnet Hstores.
  apply fetch_hit_run; [done|congruence|done|].
  apply storage_match_unique; [done|by apply handle_keeps_distinct_names| |].
  - intros name. simpl.
    destruct (fetch_miss_run v h req resp s) as (s' & -> & He); [done..|]. simpl.
    rewrite He. destruct (decide _); [by right|left].
    by apply storage_match_None.
  - exists (CACHE_NAME v). simpl.
    destruct (fetch_miss_run v h req resp s) as (s' & -> & He); [done..|]. simpl.
    rewrite He. by rewrite decide_True.
Qed.

Lemma stored_response_is_served_again_witness :
  run_fetch (on_fetch Rev2 Ex.offline (Ex.get Ex.site "/songs/" "cors"))
    (handle Rev2 Ex.online (Fetch (Ex.get Ex.site "/songs/" "cors")) initial)
  = (Responded (Some Ex.fresh),
     handle Rev2 Ex.online (Fetch (Ex.get Ex.site "/songs/" "cors")) initial).
Proof.
  apply (stored_response_is_served_again Rev2 Ex.online Ex.offline
           (Ex.get Ex.site "/songs/" "cors") Ex.fresh initial);
    [compute_done|done..].
Defined.

(** ** Saving one page for offline reading *)

(** Opening a cache and adding one URL to it: the outcome, and the entries
    it leaves. *)
Lemma open_add_spec (h : Host.t) (name0 path : string) (s : State) :
  ∃ r s',
    Host.cache_add h name0 path (Host.caches_open name0 s).2 = (r, s') ∧
    (r = Fulfilled tt ↔ ∃ resp, fetchable h path resp) ∧
    console s' = console s ∧ toasts s' = toasts s ∧
    ∀ name key,
      Host.entry name key (caches s')
      = match Host.network h (Host.request_of h path "default") with
        | Some resp =>
            if decide (Host.addable resp = true ∧ name0 = name ∧
                       Host.location_origin h +:+ path = key)
            then Some resp else Host.entry name key (caches s)
        | None => Host.entry name key (caches s)
        end.
Proof.
  destruct (cache_add_spec h name0 path (Host.caches_open name0 s).2)
    as (r & s' & Hrun & Hr & _ & He).
  exists r, s'. split_and!; [done|done| | |].
  - revert Hrun. unfold Host.cache_add, Host.fetch_ok, then_, Host.fetch, Host.cache_put.
    rewrite <- (caches_open_console name0 s).
    destruct (Host.network h _) as [resp|]; [|by intros [= _ <-]].
    destruct (Host.addable resp); [|by intros [= _ <-]]. simpl.
    destruct (decide (status resp = 206)); by intros [= _ <-].
  - revert Hrun. unfold Host.cache_add, Host.fetch_ok, then_, Host.fetch, Host.cache_put.
    assert (toasts (Host.caches_open name0 s).2 = toasts s) as <-.
    { unfold Host.caches_open. by destruct (Host.storage_get name0 (caches s)). }
    destruct (Host.network h _) as [resp|]; [|by intros [= _ <-]].
    destruct (Host.addable resp); [|by intros [= _ <-]]. simpl.
    destruct (decide (status resp = 206)); by intros [= _ <-].
  - intros name key. rewrite He.
    assert (Host.entry name key (caches (Host.caches_open name0 s).2)
            = Host.entry name key (caches s)) as ->; [|done].
    unfold Host.caches_open. destruct (Host.storage_get name0 (caches s)); [done|].
    apply entry_snoc_empty.
Qed.

(** The caches revision 1's message listener leaves for a SAVE_OFFLINE
    message. *)
Lemma V5_save_caches (h : Host.t) (u : string) (s : State) :
  caches (V5.on_message h (Some {| data_type := Some "SAVE_OFFLINE"; data_url := u |}) s).2
  = caches (Host.cache_add h V5.CACHE_NAME u (Host.caches_open V5.CACHE_NAME s).2).2.
Proof.
  unfold V5.on_message. simpl. unfold detached at 1, then_ at 1.
  rewrite caches_open_run. unfold detached, then_. simpl.
  by destruct (Host.cache_add h V5.CACHE_NAME u _) as [[] ?].
Qed.

Lemma entry_filter (current name key : string) (cs : CacheStorage) :
  Host.entry name key (filter (λ e, e.1 = current) cs)
  = if decide (name = current) then Host.entry name key cs else None.
Proof.
  unfold Host.entry. rewrite storage_get_filter. by destruct (decide (name = current)).
Qed.

(** The entries a SAVE_OFFLINE message leaves in revision 1. *)
Lemma V5_save_entries (h : Host.t) (u : string) (s : State) (name key : string) :
  Host.entry name key
    (caches (V5.on_message h (Some {| data_type := Some "SAVE_OFFLINE"; data_url := u |})
               s).2)
  = match Host.network h (Host.request_of h u "default") with
    | Some resp =>
        if decide (Host.addable resp = true ∧ V5.CACHE_NAME = name ∧
                   Host.location_origin h +:+ u = key)
        then Some resp else Host.entry name key (caches s)
    | None => Host.entry name key (caches s)
    end.
Proof.
  rewrite V5_save_caches.
  destruct (open_add_spec h V5.CACHE_NAME u s) as (r & s' & -> & _ & _ & _ & He).
  apply He.
Qed.




(** ** Activate again, and what a fetch event can touch *)

(** X17.  Activate needs no network and is idempotent: it issues no
    fetch, and a second activate of the same revision changes no cache. *)
Theorem activate_is_idempotent (v : Revision) (h1 h2 : Host.t) (s : State) :
  fetched (handle v h1 Activate s) = fetched s ∧
  caches (handle v h2 Activate (handle v h1 Activate s))
  = caches (handle v h1 Activate s).
Proof.
  split.
  - simpl. destruct (run_activate_caches v s) as (s' & Hrun & Hf & _).
    by rewrite Hrun.
  - rewrite !handle_activate_caches, list_filter_filter.
    apply list_filter_iff. intros [n c]. simpl. tauto.
Qed.

(** X18.  A fetch event touches nothing but its own entry: whatever the
    request, the store and the network are, the listener of either
    revision writes no console line, issues at most one network fetch (for
    the request itself), and changes no cache entry other than the one
    under the request's URL in the current generation. *)
Theorem fetch_event_frame
    (v : Revision) (h : Host.t) (req : Request) (s : State) :
  console (handle v h (Fetch req) s) = console s ∧
  (fetched (handle v h (Fetch req) s) = fetched s ∨
   fetched (handle v h (Fetch req) s) = req :: fetched s) ∧
  ∀ name key,
    name ≠ CACHE_NAME v ∨ key ≠ href (url req) →
    Host.entry name key (caches (handle v h (Fetch req) s))
    = Host.entry name key (caches s).
Proof.
  enough (∃ o s', run_fetch (on_fetch v h req) s = (o, s') ∧
                  console s' = console s ∧
                  (fetched s' = fetched s ∨ fetched s' = req :: fetched s) ∧
                  ∀ name key,
                    name ≠ CACHE_NAME v ∨ key ≠ href (url req) →
                    Host.entry name key (caches s') = Host.entry name key (caches s))
    as (o & s' & Hrun & ? & ? & ?).
  { unfold handle. rewrite Hrun. simpl. auto. }
  assert (∀ resp s0,
            console s0 = console s → fetched s0 = req :: fetched s →
            caches s0 = caches s →
            ∃ s',
              (detached (cache <- Host.caches_open (CACHE_NAME v) ;;
                         detached (Host.cache_put cache req resp)) s0)
              = (Fulfilled tt, s') ∧
              console s' = console s ∧ fetched s' = req :: fetched s ∧
              ∀ name key,
                name ≠ CACHE_NAME v ∨ key ≠ href (url req) →
                Host.entry name key (caches s') = Host.entry name key (caches s))
    as Hput.
  { intros resp s0 Hc Hf Hcs. unfold detached at 1.
    destruct (open_put_spec (CACHE_NAME v) req resp s0) as (s' & -> & Hf' & Hc' & He).
    exists s'. split_and!; [done|congruence|congruence|].
    intros name key Hother. rewrite He, Hcs.
    apply decide_False. intros (_ & _ & <- & <-). by destruct Hother. }
  destruct v; simpl in *.
  - unfold V5.on_fetch. destruct (decide (method req ≠ "GET")).
    { eexists _, _. split_and!; [done|done|by left|done]. }
    simpl. unfold then_ at 1, Host.caches_match.
    destruct (Host.storage_match req (caches s)).
    { eexists _, _. split_and!; [done|done|by left|done]. }
    unfold catch, then_ at 1, Host.fetch.
    destruct (Host.network h req) as [resp|].
    + destruct (String.prefix _ _).
      * unfold then_ at 1.
        match goal with |- context [ detached _ ?s0 ] =>
          destruct (Hput (clone resp) s0) as (s' & -> & Hc & Hf & He); [done..|] end.
        eexists _, _. split_and!; [done|done|by right|done].
      * simpl. eexists _, _. split_and!; [done|done|by right|done].
    + destruct (decide (mode req = "navigate"));
        eexists _, _; (split_and!; [done|done|by right|done]).
  - unfold V7.on_fetch.
    destruct (decide (origin (url req) ≠ Host.location_origin h)).
    { eexists _, _. split_and!; [done|done|by left|done]. }
    destruct (decide (mode req = "navigate")); simpl.
    + unfold catch, then_, Host.fetch.
      destruct (Host.network h req);
        eexists _, _; (split_and!; [done|done|by right|done]).
    + unfold then_ at 1, Host.caches_match.
      destruct (Host.storage_match req (caches s)).
      { eexists _, _. split_and!; [done|done|by left|done]. }
      unfold catch, then_ at 1, Host.fetch.
      destruct (Host.network h req) as [resp|].
      * destruct (decide (status resp ≠ 200 ∨ type resp ≠ "basic")).
        { eexists _, _. split_and!; [done|done|by right|done]. }
        unfold then_ at 1.
        match goal with |- context [ detached _ ?s0 ] =>
          destruct (Hput (clone resp) s0) as (s' & -> & Hc & Hf & He); [done..|] end.
        eexists _, _. split_and!; [done|done|by right|done].
      * eexists _, _. split_and!; [done|done|by right|done].
Qed.

Lemma fetch_event_frame_witness :
  Host.entry "ayyappa-offline-songs" (Ex.site +:+ "/songs/view/7/")
    (caches (handle Rev1 Ex.online (Fetch (Ex.get Ex.site "/songs/view/7/" "cors"))
               (with_caches [("ayyappa-offline-songs", ∅)] initial)))
  = None.
Proof.
  destruct (fetch_event_frame Rev1 Ex.online (Ex.get Ex.site "/songs/view/7/" "cors")
              (with_caches [("ayyappa-offline-songs", ∅)] initial)) as (_ & _ & He).
  rewrite He; [done|]. by left.
Defined.

(** ** The page script: saving a song on a controlled page *)

(** Every URL string the source passes as a constant is a root-relative
    path in normal form. *)
Lemma constants_root_relative :
  forallb Host.root_relative
    (V5.OFFLINE_PAGE :: V7.OFFLINE_URL :: V5.urlsToCache ++ V7.CACHE_URLS) = true.
Proof. by vm_compute. Qed.

Lemma caches_open_entries (n name key : string) (s : State) :
  Host.entry name key (caches (Host.caches_open n s).2) = Host.entry name key (caches s).
Proof.
  unfold Host.caches_open. destruct (Host.storage_get n (caches s)); [done|].
  apply entry_snoc_empty.
Qed.

Lemma caches_open_distinct (n : string) (s : State) :
  distinct_names (caches s) → distinct_names (caches (Host.caches_open n s).2).
Proof.
  intros Hnd. unfold Host.caches_open.
  destruct (Host.storage_get n (caches s)) eqn:Hget; [done|].
  by apply distinct_names_open.
Qed.

(** With distinct names, a URL that no cache holds by name is found by no
    lookup. *)
Lemma storage_match_no_entry (req : Request) (cs : CacheStorage) :
  method req = "GET" → distinct_names cs →
  (∀ name, Host.entry name (href (url req)) cs = None) →
  Host.storage_match req cs = None.
Proof.
  intros Hget. unfold distinct_names, Host.storage_keys.
  induction cs as [|[n c] cs IH]; intros Hnd Hall; [done|].
  apply NoDup_cons in Hnd as [Hn Hnd]. simpl in *.
  unfold Host.cache_match. rewrite decide_True by done.
  pose proof (Hall n) as Hfirst. unfold Host.entry in Hfirst. simpl in Hfirst.
  rewrite decide_True in Hfirst by done. simpl in Hfirst. rewrite Hfirst.
  apply IH; [done|]. intros name.
  destruct (decide (name = n)) as [->|Hne].
  - unfold Host.entry. by apply storage_get_None in Hn as ->.
  - specialize (Hall name). unfold Host.entry in *. simpl in Hall.
    by rewrite decide_False in Hall.
Qed.

(** A sub-resource miss that the network does not answer. *)
Lemma fetch_fail_run (v : Revision) (h : Host.t) (req : Request) (s : State) :
  method req = "GET" →
  origin (url req) = Host.location_origin h →
  mode req ≠ "navigate" →
  Host.storage_match req (caches s) = None →
  Host.network h req = None →
  ∃ s', run_fetch (on_fetch v h req) s
        = (Responded (match v with
                      | Rev1 => None
                      | Rev2 => Some (new_Response "Network error" 408)
                      end), s') ∧
        caches s' = caches s.
Proof.
  intros Hget Horigin Hmode Hmiss Hnet. destruct v; simpl.
  - unfold V5.on_fetch. rewrite decide_False by (by intros []).
    simpl. unfold then_ at 1, Host.caches_match. rewrite Hmiss.
    unfold catch, then_ at 1, Host.fetch. rewrite Hnet.
    rewrite decide_False by done. by eexists.
  - unfold V7.on_fetch. rewrite decide_False by (by intros []).
    rewrite decide_False by done.
    simpl. unfold then_ at 1, Host.caches_match. rewrite Hmiss.
    unfold catch, then_ at 1, Host.fetch. rewrite Hnet. by eexists.
Qed.

(** The page's fetch in terms of the fetch event it is. *)
Lemma controlled_fetch_run (v : Revision) (h : Host.t) (req : Request) (s : State) :
  is_Some (on_fetch v h req) →
  App.controlled_fetch v h req s
  = match run_fetch (on_fetch v h req) s with
    | (Responded (Some r), s') => (Fulfilled r, s')
    | (Responded None, s') => (Rejected NetworkFailure, s')
    | (Failed e, s') => (Rejected e, s')
    | (PassedThrough, s') => (Rejected NetworkFailure, s')
    end.
Proof.
  intros [p Hp]. unfold App.controlled_fetch. rewrite Hp. simpl. unfold then_.
  by destruct (p s) as [[[r|]|e] s'].
Qed.

Lemma intercepted_same_origin_get (v : Revision) (h : Host.t) (req : Request) :
  method req = "GET" → origin (url req) = Host.location_origin h →
  is_Some (on_fetch v h req).
Proof.
  intros Hget Horigin. destruct v; simpl.
  - unfold V5.on_fetch. rewrite decide_False by (by intros []). by eexists.
  - unfold V7.on_fetch. rewrite decide_False by (by intros []).
    destruct (decide (mode req = "navigate")); by eexists.
Qed.

(** The page's [cache.add], from what its fetch gives. *)
Lemma page_add_run (v : Revision) (h : Host.t) (name0 path : string) (s : State) :
  App.cache_add v h name0 path s
  = match App.controlled_fetch v h (Host.request_of h path "default") s with
    | (Fulfilled r, s') =>
        if Host.addable r
        then (Fulfilled tt,
              with_caches (Host.cache_write name0 (Host.location_origin h +:+ path) r
                             (caches s')) s')
        else (Rejected TypeError, s')
    | (Rejected e, s') => (Rejected e, s')
    end.
Proof.
  unfold App.cache_add, then_.
  destruct (App.controlled_fetch v h _ s) as [[r|e] s']; [|done].
  destruct (Host.addable r) eqn:Hadd; [|done].
  unfold Host.cache_put. simpl. by rewrite decide_False by by apply addable_not_206.
Qed.

(** The state [saveOffline] leaves on a supporting browser with a
    controlling worker, from the outcome of the page's [cache.add]. *)
Lemma saveOffline_state (h : Host.t) (v : Revision) (songId title : string) (s : State) :
  (App.saveOffline h (Some v) true songId title s).2
  = match App.cache_add v h App.OFFLINE_SONGS (App.song_url songId)
            (Host.caches_open App.OFFLINE_SONGS
               (on_message v h (Some {| data_type := Some "SAVE_OFFLINE";
                                        data_url := App.song_url songId |}) s).2).2 with
    | (Fulfilled _, s') =>
        (App.showToast (App.dquote +:+ title +:+ App.dquote
                          +:+ " saved for offline reading!") "success" s').2
    | (Rejected _, s') =>
        (Host.console_line Error "Offline save failed:"
           (App.showToast "Failed to save song offline" "error" s').2).2
    end.
Proof.
  unfold App.saveOffline, then_ at 1, detached at 1. simpl.
  unfold detached at 1, then_ at 1. rewrite caches_open_run.
  unfold detached, catch, then_. simpl.
  by destruct (App.cache_add v h App.OFFLINE_SONGS (App.song_url songId) _) as [[] ?].
Qed.

(** The store in which the page's [cache.add] starts: the message has been
    handled and the page's cache is open. *)
Lemma before_page_add (v : Revision) (h : Host.t) (u : string) (s : State) :
  distinct_names (caches s) →
  distinct_names
    (caches (Host.caches_open App.OFFLINE_SONGS
               (on_message v h (Some {| data_type := Some "SAVE_OFFLINE";
                                        data_url := u |}) s).2).2) ∧
  ∀ name key,
    Host.entry name key
      (caches (Host.caches_open App.OFFLINE_SONGS
                 (on_message v h (Some {| data_type := Some "SAVE_OFFLINE";
                                          data_url := u |}) s).2).2)
    = match v, Host.network h (Host.request_of h u "default") with
      | Rev1, Some resp =>
          if decide (Host.addable resp = true ∧ V5.CACHE_NAME = name ∧
                     Host.location_origin h +:+ u = key)
          then Some resp else Host.entry name key (caches s)
      | _, _ => Host.entry name key (caches s)
      end.
Proof.
  intros Hnd. split.
  - apply caches_open_distinct.
    by apply (handle_keeps_distinct_names v h (Message _) s).
  - intros name key. rewrite caches_open_entries. destruct v; cbn [on_message].
    + rewrite V5_save_entries. by destruct (Host.network h _).
    + done.
Qed.

(** Saving a song that no cache holds yet and that the network serves. *)
Lemma page_add_ok (v : Revision) (h : Host.t) (u : string) (resp : Response) (s : State) :
  distinct_names (caches s) →
  Host.storage_match (Host.request_of h u "default") (caches s) = None →
  fetchable h u resp →
  ∃ s2,
    App.cache_add v h App.OFFLINE_SONGS u
      (Host.caches_open App.OFFLINE_SONGS
         (on_message v h (Some {| data_type := Some "SAVE_OFFLINE"; data_url := u |}) s).2).2
    = (Fulfilled tt, s2) ∧
    Host.entry App.OFFLINE_SONGS (Host.location_origin h +:+ u) (caches s2) = Some resp ∧
    ((v = Rev2 → stores Rev2 resp) →
     Host.entry (CACHE_NAME v) (Host.location_origin h +:+ u) (caches s2) = Some resp).
Proof.
  intros Hnd Hmiss [Hnet Hadd].
  destruct (before_page_add v h u s Hnd) as [Hnd1 He1].
  revert Hnd1 He1.
  generalize (Host.caches_open App.OFFLINE_SONGS
                (on_message v h (Some {| data_type := Some "SAVE_OFFLINE";
                                         data_url := u |}) s).2).2.
  intros s1 Hnd1 He1. rewrite Hnet in He1.
  pose proof (storage_match_None (Host.request_of h u "default") _ eq_refl Hmiss)
    as Hnone.
  unfold href in Hnone. simpl in Hnone.
  rewrite page_add_run, controlled_fetch_run
    by (by apply intercepted_same_origin_get).
  destruct v.
  - (* revision 1: the message stored the response, the page's fetch hits it *)
    rewrite (fetch_hit_run Rev1 h _ resp s1); [|done|done|done|].
    + rewrite Hadd. eexists. split_and!; [done| |]; simpl.
      * rewrite entry_write. by rewrite decide_True.
      * intros _. rewrite entry_write, decide_False by (by intros [? _]).
        rewrite He1. by rewrite decide_True.
    + apply storage_match_unique; [done|done| |].
      * intros name. simpl. unfold href. simpl. rewrite He1.
        destruct (decide _); [by right|left]. apply Hnone.
      * exists V5.CACHE_NAME. simpl. unfold href. simpl. rewrite He1.
        by rewrite decide_True.
  - (* revision 2: the page's fetch misses, goes to the network *)
    destruct (fetch_miss_run Rev2 h (Host.request_of h u "default") resp s1)
      as (s' & -> & He'); [done|done|done| |done|].
    { apply storage_match_no_entry; [done|done|].
      intros name. simpl. unfold href. simpl. rewrite He1. apply Hnone. }
    rewrite Hadd. eexists. split_and!; [done| |]; simpl.
    + rewrite entry_write. by rewrite decide_True.
    + intros Hst. specialize (Hst eq_refl).
      rewrite entry_write, decide_False by (by intros [? _]).
      rewrite He'. by rewrite decide_True.
Qed.

(** Saving a song that no cache holds and that cannot be fetched with an
    acceptable response. *)
Lemma page_add_fails (v : Revision) (h : Host.t) (u : string) (s : State) :
  distinct_names (caches s) →
  Host.storage_match (Host.request_of h u "default") (caches s) = None →
  (∀ resp, ¬ fetchable h u resp) →
  ∃ e s2,
    App.cache_add v h App.OFFLINE_SONGS u
      (Host.caches_open App.OFFLINE_SONGS
         (on_message v h (Some {| data_type := Some "SAVE_OFFLINE"; data_url := u |}) s).2).2
    = (Rejected e, s2) ∧
    Host.entry App.OFFLINE_SONGS (Host.location_origin h +:+ u) (caches s2) = None.
Proof.
  intros Hnd Hmiss Hno.
  destruct (before_page_add v h u s Hnd) as [Hnd1 He1].
  revert Hnd1 He1.
  generalize (Host.caches_open App.OFFLINE_SONGS
                (on_message v h (Some {| data_type := Some "SAVE_OFFLINE";
                                         data_url := u |}) s).2).2.
  intros s1 Hnd1 He1.
  pose proof (storage_match_None (Host.request_of h u "default") _ eq_refl Hmiss)
    as Hnone.
  unfold href in Hnone. simpl in Hnone.
  assert (∀ name, Host.entry name (Host.location_origin h +:+ u) (caches s1) = None)
    as Hnone1.
  { intros name. rewrite He1. destruct v; [|apply Hnone].
    destruct (Host.network h _) as [resp|] eqn:Hnet; [|apply Hnone].
    rewrite decide_False; [apply Hnone|]. intros (Hadd & _). by destruct (Hno resp). }
  assert (Host.storage_match (Host.request_of h u "default") (caches s1) = None) as Hmiss1.
  { by apply storage_match_no_entry. }
  rewrite page_add_run, controlled_fetch_run
    by (by apply intercepted_same_origin_get).
  destruct (Host.network h (Host.request_of h u "default")) as [resp|] eqn:Hnet.
  - destruct (fetch_miss_run v h (Host.request_of h u "default") resp s1)
      as (s' & -> & He'); [done|done|by destruct v|done|done|].
    assert (Host.addable resp = false) as ->.
    { destruct (Host.addable resp) eqn:Hadd; [|done]. by destruct (Hno resp). }
    eexists _, _. split; [done|].
    rewrite He', decide_False; [apply Hnone1|].
    intros (_ & Hname & _). by destruct v.
  - destruct (fetch_fail_run v h (Host.request_of h u "default") s1)
      as (s' & -> & Hc'); [done..|].
    destruct v; simpl.
    + eexists _, _. split; [done|]. rewrite Hc'. apply Hnone1.
    + eexists _, _. split; [done|]. rewrite Hc'. apply Hnone1.
Qed.

(** C9.  The page script saves a song into the cache ayyappa-offline-songs
    (shown for a song with a root-relative URL that no cache holds yet and
    that the network serves with an ok response, under either controlling
    revision), a name different from revision 1's current cache name;
    whatever the store holds, revision 1's activate leaves no cache of that
    name, so no entry saved there survives it. *)
Theorem rev1_activate_destroys_page_saved_songs
    (v : Revision) (h : Host.t) (songId title : string) (resp : Response) (s : State) :
  Host.root_relative (App.song_url songId) = true →
  distinct_names (caches s) →
  Host.storage_match (Host.request_of h (App.song_url songId) "default") (caches s) = None →
  fetchable h (App.song_url songId) resp →
  App.OFFLINE_SONGS ≠ V5.CACHE_NAME ∧
  Host.entry App.OFFLINE_SONGS (Host.location_origin h +:+ App.song_url songId)
    (caches (App.saveOffline h (Some v) true songId title s).2)
  = Some resp ∧
  ∀ s0,
    Host.storage_get App.OFFLINE_SONGS (caches (V5.activate s0).2) = None ∧
    ∀ key, Host.entry App.OFFLINE_SONGS key (caches (V5.activate s0).2) = None.
Proof.
  intros _ Hnd Hmiss Hf. split_and!.
  - done.
  - rewrite saveOffline_state.
    destruct (page_add_ok v h (App.song_url songId) resp s Hnd Hmiss Hf)
      as (s2 & -> & Hpage & _).
    exact Hpage.
  - intros s0. rewrite <- run_activate_rev1.
    destruct (run_activate_caches Rev1 s0) as (s' & -> & _ & Hc). simpl.
    assert (Host.storage_get App.OFFLINE_SONGS (caches s') = None) as Hgone.
    { rewrite Hc, storage_get_filter. by rewrite decide_False. }
    split; [done|]. intros key. unfold Host.entry. by rewrite Hgone.
Qed.

Lemma rev1_activate_destroys_page_saved_songs_witness :
  Host.entry App.OFFLINE_SONGS (Ex.site +:+ "/songs/view/7/")
    (caches (App.saveOffline Ex.online (Some Rev1) true "7" "Harivarasanam" initial).2)
  = Some Ex.fresh ∧
  Host.entry App.OFFLINE_SONGS (Ex.site +:+ "/songs/view/7/")
    (caches (V5.activate
               (App.saveOffline Ex.online (Some Rev1) true "7" "Harivarasanam" initial).2).2)
  = None.
Proof.
  destruct (rev1_activate_destroys_page_saved_songs Rev1 Ex.online
              "7" "Harivarasanam" Ex.fresh initial) as (_ & Hsaved & Hgone);
    [by vm_compute|compute_done|done|done|].
  split; [exact Hsaved|]. apply Hgone.
Defined.

(** X13.  On a controlled page, for a song with a root-relative URL that no
    cache holds yet, [saveOffline] tells the user what happened, under
    either controlling revision: when the network serves the song page
    with an ok response, the page's cache gets that response and the
    success toast is shown; when the fetch fails or the response is not
    ok, the error toast is shown, the failure is logged with console.error
    and the page's cache gets no entry for the song. *)
Theorem saveOffline_reports_outcome
    (v : Revision) (h : Host.t) (songId title : string) (s : State) :
  Host.root_relative (App.song_url songId) = true →
  distinct_names (caches s) →
  Host.storage_match (Host.request_of h (App.song_url songId) "default") (caches s) = None →
  (∀ resp, fetchable h (App.song_url songId) resp →
     head (toasts (App.saveOffline h (Some v) true songId title s).2)
     = Some (App.dquote +:+ title +:+ App.dquote +:+ " saved for offline reading!",
             "success") ∧
     Host.entry App.OFFLINE_SONGS (Host.location_origin h +:+ App.song_url songId)
       (caches (App.saveOffline h (Some v) true songId title s).2)
     = Some resp) ∧
  ((∀ resp, ¬ fetchable h (App.song_url songId) resp) →
     head (toasts (App.saveOffline h (Some v) true songId title s).2)
     = Some ("Failed to save song offline", "error") ∧
     head (console (App.saveOffline h (Some v) true songId title s).2)
     = Some (Error, "Offline save failed:") ∧
     Host.entry App.OFFLINE_SONGS (Host.location_origin h +:+ App.song_url songId)
       (caches (App.saveOffline h (Some v) true songId title s).2)
     = None).
Proof.
  intros _ Hnd Hmiss. rewrite saveOffline_state. split.
  - intros resp Hf.
    destruct (page_add_ok v h (App.song_url songId) resp s Hnd Hmiss Hf)
      as (s2 & -> & Hpage & _).
    by split.
  - intros Hno.
    destruct (page_add_fails v h (App.song_url songId) s Hnd Hmiss Hno)
      as (e & s2 & -> & Hpage).
    by split_and!.
Qed.

Lemma saveOffline_reports_outcome_witness :
  head (toasts (App.saveOffline Ex.offline (Some Rev2) true "7" "Harivarasanam" initial).2)
  = Some ("Failed to save song offline", "error").
Proof.
  destruct (saveOffline_reports_outcome Rev2 Ex.offline "7" "Harivarasanam" initial)
    as [_ Hfail]; [by vm_compute|compute_done|done|].
  apply Hfail. clear. intros resp [Hnet _]. done.
Defined.

(** A saved song has a second copy in the worker's generation, and that
    copy outlives the cleanup. *)
Lemma saved_song_survives
    (v : Revision) (h h2 h3 : Host.t) (songId title : string) (resp : Response)
    (req : Request) (s : State) :
  distinct_names (caches s) →
  Host.storage_match (Host.request_of h (App.song_url songId) "default") (caches s) = None →
  fetchable h (App.song_url songId) resp →
  (v = Rev2 → stores Rev2 resp) →
  method req = "GET" →
  url req = {| origin := Host.location_origin h; pathname := App.song_url songId |} →
  (v = Rev2 → mode req ≠ "navigate") →
  Host.location_origin h3 = Host.location_origin h →
  Host.entry App.OFFLINE_SONGS (Host.location_origin h +:+ App.song_url songId)
    (caches (App.saveOffline h (Some v) true songId title s).2) = Some resp ∧
  Host.entry (CACHE_NAME v) (Host.location_origin h +:+ App.song_url songId)
    (caches (App.saveOffline h (Some v) true songId title s).2) = Some resp ∧
  Host.entry App.OFFLINE_SONGS (Host.location_origin h +:+ App.song_url songId)
    (caches (handle v h2 Activate (App.saveOffline h (Some v) true songId title s).2))
  = None ∧
  Host.entry (CACHE_NAME v) (Host.location_origin h +:+ App.song_url songId)
    (caches (handle v h2 Activate (App.saveOffline h (Some v) true songId title s).2))
  = Some resp ∧
  run_fetch (on_fetch v h3 req)
    (handle v h2 Activate (App.saveOffline h (Some v) true songId title s).2)
  = (Responded (Some resp),
     handle v h2 Activate (App.saveOffline h (Some v) true songId title s).2).
Proof.
  intros Hnd Hmiss Hf Hst Hget Hurl Hmode Hsame.
  assert (Host.entry App.OFFLINE_SONGS (Host.location_origin h +:+ App.song_url songId)
            (caches (App.saveOffline h (Some v) true songId title s).2) = Some resp ∧
          Host.entry (CACHE_NAME v) (Host.location_origin h +:+ App.song_url songId)
            (caches (App.saveOffline h (Some v) true songId title s).2) = Some resp)
    as [Hpage Hworker].
  { rewrite saveOffline_state.
    destruct (page_add_ok v h (App.song_url songId) resp s Hnd Hmiss Hf)
      as (s2 & -> & Hpage & Hworker).
    split; [exact Hpage|by apply Hworker]. }
  assert (App.OFFLINE_SONGS ≠ CACHE_NAME v) as Hname by (by destruct v).
  split_and!; [done|done| | |].
  - rewrite handle_activate_caches, entry_filter. by rewrite decide_False.
  - rewrite handle_activate_caches, entry_filter. by rewrite decide_True.
  - apply fetch_hit_run; [done|by rewrite Hurl|done|].
    rewrite handle_activate_caches. apply storage_match_filter; [done|].
    by rewrite Hurl.
Qed.

(** X14.  Under revision 1 a song saved with [saveOffline] (root-relative
    URL, held by no cache before, served by the network with an ok
    response) is stored twice: in the page's cache and in the worker's
    current generation.  Revision 1's activate removes the page's copy and
    keeps the worker's, so a GET request for the song is still answered
    from the cache afterwards, with no network fetch. *)
Theorem rev1_saved_song_survives_in_worker_cache
    (h h2 h3 : Host.t) (songId title : string) (resp : Response) (req : Request)
    (s : State) :
  Host.root_relative (App.song_url songId) = true →
  distinct_names (caches s) →
  Host.storage_match (Host.request_of h (App.song_url songId) "default") (caches s) = None →
  fetchable h (App.song_url songId) resp →
  method req = "GET" →
  url req = {| origin := Host.location_origin h; pathname := App.song_url songId |} →
  Host.location_origin h3 = Host.location_origin h →
  Host.entry App.OFFLINE_SONGS (Host.location_origin h +:+ App.song_url songId)
    (caches (App.saveOffline h (Some Rev1) true songId title s).2) = Some resp ∧
  Host.entry V5.CACHE_NAME (Host.location_origin h +:+ App.song_url songId)
    (caches (App.saveOffline h (Some Rev1) true songId title s).2) = Some resp ∧
  Host.entry App.OFFLINE_SONGS (Host.location_origin h +:+ App.song_url songId)
    (caches (handle Rev1 h2 Activate (App.saveOffline h (Some Rev1) true songId title s).2))
  = None ∧
  Host.entry V5.CACHE_NAME (Host.location_origin h +:+ App.song_url songId)
    (caches (handle Rev1 h2 Activate (App.saveOffline h (Some Rev1) true songId title s).2))
  = Some resp ∧
  run_fetch (on_fetch Rev1 h3 req)
    (handle Rev1 h2 Activate (App.saveOffline h (Some Rev1) true songId title s).2)
  = (Responded (Some resp),
     handle Rev1 h2 Activate (App.saveOffline h (Some Rev1) true songId title s).2).
Proof.
  intros _ Hnd Hmiss Hf Hget Hurl Hsame.
  by apply (saved_song_survives Rev1 h h2 h3 songId title resp req s).
Qed.

Lemma rev1_saved_song_survives_in_worker_cache_witness :
  run_fetch (on_fetch Rev1 Ex.offline (Ex.get Ex.site "/songs/view/7/" "navigate"))
    (handle Rev1 Ex.offline Activate
       (App.saveOffline Ex.online (Some Rev1) true "7" "Harivarasanam" initial).2)
  = (Responded (Some Ex.fresh),
     handle Rev1 Ex.offline Activate
       (App.saveOffline Ex.online (Some Rev1) true "7" "Harivarasanam" initial).2).
Proof.
  apply (rev1_saved_song_survives_in_worker_cache Ex.online Ex.offline Ex.offline
           "7" "Harivarasanam" Ex.fresh (Ex.get Ex.site "/songs/view/7/" "navigate")
           initial); [by vm_compute|compute_done|done..].
Defined.

(** X15.  Under revision 2 a saved song survives as well, through the fetch
    listener: the page's [cache.add] is a fetch event of the worker, which
    stores a "basic" answer with status 200 in its current generation.
    Revision 2's activate removes the page's copy and keeps the worker's; a
    later GET request for the song that is not a navigation is answered
    from the cache with no network fetch, while a navigation to it that
    finds the network down gets what the cache holds for the offline path,
    not the saved song. *)
Theorem rev2_saved_song_survives_in_worker_cache
    (h h2 h3 : Host.t) (songId title : string) (resp : Response) (req nav : Request)
    (s : State) :
  Host.root_relative (App.song_url songId) = true →
  distinct_names (caches s) →
  Host.storage_match (Host.request_of h (App.song_url songId) "default") (caches s) = None →
  fetchable h (App.song_url songId) resp →
  status resp = 200 → type resp = "basic" →
  method req = "GET" → mode req ≠ "navigate" →
  url req = {| origin := Host.location_origin h; pathname := App.song_url songId |} →
  mode nav = "navigate" →
  url nav = {| origin := Host.location_origin h; pathname := App.song_url songId |} →
  Host.network h3 nav = None →
  Host.location_origin h3 = Host.location_origin h →
  Host.entry App.OFFLINE_SONGS (Host.location_origin h +:+ App.song_url songId)
    (caches (App.saveOffline h (Some Rev2) true songId title s).2) = Some resp ∧
  Host.entry V7.CACHE_NAME (Host.location_origin h +:+ App.song_url songId)
    (caches (App.saveOffline h (Some Rev2) true songId title s).2) = Some resp ∧
  Host.entry App.OFFLINE_SONGS (Host.location_origin h +:+ App.song_url songId)
    (caches (handle Rev2 h2 Activate (App.saveOffline h (Some Rev2) true songId title s).2))
  = None ∧
  Host.entry V7.CACHE_NAME (Host.location_origin h +:+ App.song_url songId)
    (caches (handle Rev2 h2 Activate (App.saveOffline h (Some Rev2) true songId title s).2))
  = Some resp ∧
  run_fetch (on_fetch Rev2 h3 req)
    (handle Rev2 h2 Activate (App.saveOffline h (Some Rev2) true songId title s).2)
  = (Responded (Some resp),
     handle Rev2 h2 Activate (App.saveOffline h (Some Rev2) true songId title s).2) ∧
  (run_fetch (on_fetch Rev2 h3 nav)
     (handle Rev2 h2 Activate (App.saveOffline h (Some Rev2) true songId title s).2)).1
  = Responded
      (Host.storage_match (Host.request_of h3 V7.OFFLINE_URL "default")
         (caches (handle Rev2 h2 Activate
                    (App.saveOffline h (Some Rev2) true songId title s).2))).
Proof.
  intros _ Hnd Hmiss Hf H200 Hbasic Hget Hmode Hurl Hnav Hnavurl Hdown Hsame.
  destruct (saved_song_survives Rev2 h h2 h3 songId title resp req s)
    as (H1 & H2 & H3 & H4 & H5); [done|done|done|by split|done|done|done|done|].
  split_and!; [done..|].
  rewrite navigation_offline_run; [done| |done|done].
  simpl. unfold V7.on_fetch.
  rewrite decide_False by (rewrite Hnavurl, Hsame; by intros []).
  by rewrite decide_True.
Qed.

Lemma rev2_saved_song_survives_in_worker_cache_witness :
  run_fetch (on_fetch Rev2 Ex.offline (Ex.get Ex.site "/songs/view/7/" "cors"))
    (handle Rev2 Ex.offline Activate
       (App.saveOffline Ex.online (Some Rev2) true "7" "Harivarasanam" initial).2)
  = (Responded (Some Ex.fresh),
     handle Rev2 Ex.offline Activate
       (App.saveOffline Ex.online (Some Rev2) true "7" "Harivarasanam" initial).2) ∧
  (run_fetch (on_fetch Rev2 Ex.offline (Ex.get Ex.site "/songs/view/7/" "navigate"))
     (handle Rev2 Ex.offline Activate
        (App.saveOffline Ex.online (Some Rev2) true "7" "Harivarasanam" initial).2)).1
  = Responded None.
Proof.
  destruct (rev2_saved_song_survives_in_worker_cache Ex.online Ex.offline Ex.offline
              "7" "Harivarasanam" Ex.fresh (Ex.get Ex.site "/songs/view/7/" "cors")
              (Ex.get Ex.site "/songs/view/7/" "navigate") initial)
    as (_ & _ & _ & _ & Hserved & Hnav);
    [by vm_compute|compute_done|done..|].
  split; [exact Hserved|]. rewrite Hnav. clear. by vm_compute.
Defined.
